(** * twimc: the complaint importer and the chat-metrics analyser

    A shallow embedding of [src/data/cfpb_importer.py] and
    [src/scripts/chat_metrics.py], followed by the properties the
    specification states about them.

    Modelling conventions.
    - Text is a [string] whose characters are the code points U+0000 to
      U+00FF; [len] is [String.length].  The tables of [Py] below are those
      of CPython for that range.
    - A raised exception is a value: fallible code returns a [result].
    - An [int] is a [Z]; a [float] is idealised as an exact rational ([Q]),
      with [round] written out as rounding half to even on the decimal
      digit asked for.
    - A [datetime] is a naive instant, counted in microseconds since
      0001-01-01 00:00:00; a [timedelta] is a number of microseconds. *)

From Stdlib Require Import ZArith QArith Qround Bool List Ascii String Lia Lqa.
From Stdlib Require Import Sorted Permutation.
From stdpp Require Import gmap strings pretty.

Import ListNotations.
Local Open Scope Z_scope.
Local Open Scope string_scope.
Local Open Scope list_scope.

(** ** Exceptions as values *)

Inductive exn :=
| FileNotFoundError
| ZeroDivisionError
| OverflowError
| AttributeError
| IndexError
| ValueError (msg : string)
| OtherError (msg : string).

Inductive result (A : Type) :=
| Ok (a : A)
| Raise (e : exn).
Arguments Ok {A} a.
Arguments Raise {A} e.

Definition bind {A B} (m : result A) (f : A -> result B) : result B :=
  match m with
  | Ok a => f a
  | Raise e => Raise e
  end.

Notation "x <- m ;; k" := (bind m (fun x => k))
  (at level 100, m at next level, right associativity).

(** ** The Python text primitives the two scripts use *)

Module Py.

Definition code (c : ascii) : N := N_of_ascii c.

(** [str.isspace], which is also the class [\s] of [re]. *)
Definition isspace (c : ascii) : bool :=
  let n := code c in
  ((9 <=? n) && (n <=? 13) || (28 <=? n) && (n <=? 32)
   || (n =? 133) || (n =? 160))%N.

(** The class [\w] of [re] on text patterns: letters, digits, numerics and
    the underscore. *)
Definition isword (c : ascii) : bool :=
  let n := code c in
  ((48 <=? n) && (n <=? 57) || (65 <=? n) && (n <=? 90) || (n =? 95)
   || (97 <=? n) && (n <=? 122)
   || (n =? 170) || (n =? 178) || (n =? 179) || (n =? 181) || (n =? 185)
   || (n =? 186) || (188 <=? n) && (n <=? 190)
   || (192 <=? n) && (n <=? 214) || (216 <=? n) && (n <=? 246)
   || (248 <=? n))%N.

Definition lower_char (c : ascii) : ascii :=
  let n := code c in
  if ((65 <=? n) && (n <=? 90)
      || (192 <=? n) && (n <=? 222) && negb (n =? 215))%N
  then ascii_of_N (n + 32) else c.

(** [str.lower]. *)
Fixpoint lower (s : string) : string :=
  match s with
  | EmptyString => EmptyString
  | String c s' => String (lower_char c) (lower s')
  end.

Fixpoint lstrip (s : string) : string :=
  match s with
  | EmptyString => EmptyString
  | String c s' => if isspace c then lstrip s' else s
  end.

Fixpoint rstrip (s : string) : string :=
  match s with
  | EmptyString => EmptyString
  | String c s' =>
      match rstrip s' with
      | EmptyString => if isspace c then EmptyString else String c EmptyString
      | t => String c t
      end
  end.

(** [str.strip] with no argument. *)
Definition strip (s : string) : string := rstrip (lstrip s).

(** [len] of a text. *)
Definition len (s : string) : Z := Z.of_nat (String.length s).

(** The truth value of a text: empty text is false. *)
Definition truthy (s : string) : bool :=
  match s with
  | EmptyString => false
  | String _ _ => true
  end.

(** The line feed, written [\n] in the sources. *)
Definition NL : string := String (ascii_of_nat 10) EmptyString.

End Py.

(** ** The fragment of [re] the classifier's patterns are written in

    Alternation, grouping, the postfix operators [*] and [?], bracketed
    character sets, the dot, and the escapes [\b], [\s] and escaped
    punctuation.  Every search of the program passes [re.I], so literal
    characters and sets are compared without regard to case. *)

Module Re.

Inductive cset :=
| CDot
| CSpace
| CSet (cs : list ascii).

Inductive regex :=
| Void
| Eps
| Chr (c : ascii)
| Cls (cs : cset)
| Bnd
| Seq (r1 r2 : regex)
| Alt (r1 r2 : regex)
| Opt (r : regex)
| Star (r : regex).

Definition is_meta (c : ascii) : bool :=
  existsb (Ascii.eqb c)
    ["\"; "("; ")"; "["; "]"; "|"; "*"; "?"; "."; "+"; "{"; "}"; "^"; "$"]%char.

Definition parse_escape (c : ascii) : option regex :=
  if Ascii.eqb c "b" then Some Bnd
  else if Ascii.eqb c "s" then Some (Cls CSpace)
  else if is_meta c then Some (Chr c)
  else None.

(** The members of a bracketed set, up to the closing bracket. *)
Fixpoint parse_set (s : string) : option (list ascii * string) :=
  match s with
  | EmptyString => None
  | String c s' =>
      if Ascii.eqb c "]" then Some ([], s')
      else if Ascii.eqb c "\" || Ascii.eqb c "^" || Ascii.eqb c "-" then None
      else match parse_set s' with
           | Some (cs, rest) => Some (c :: cs, rest)
           | None => None
           end
  end.

Definition parse_postfix (r : regex) (s : string) : regex * string :=
  match s with
  | String "*" s' => (Star r, s')
  | String "?" s' => (Opt r, s')
  | _ => (r, s)
  end.

Definition seq_ends (s : string) : bool :=
  match s with
  | EmptyString => true
  | String c _ => Ascii.eqb c "|" || Ascii.eqb c ")"
  end.

(** Recursive descent; the fuel bounds the depth of the calls. *)
Fixpoint parse_alt (fuel : nat) (s : string) : option (regex * string) :=
  match fuel with
  | O => None
  | S n =>
      match parse_seq n s with
      | Some (r1, String "|" s') =>
          match parse_alt n s' with
          | Some (r2, rest) => Some (Alt r1 r2, rest)
          | None => None
          end
      | other => other
      end
  end
with parse_seq (fuel : nat) (s : string) : option (regex * string) :=
  match fuel with
  | O => None
  | S n =>
      if seq_ends s then Some (Eps, s)
      else match parse_atom n s with
           | Some (a, s') =>
               let '(a', s'') := parse_postfix a s' in
               match parse_seq n s'' with
               | Some (r, rest) => Some (Seq a' r, rest)
               | None => None
               end
           | None => None
           end
  end
with parse_atom (fuel : nat) (s : string) : option (regex * string) :=
  match fuel with
  | O => None
  | S n =>
      match s with
      | EmptyString => None
      | String c s' =>
          if Ascii.eqb c "(" then
            match parse_alt n s' with
            | Some (r, String ")" rest) => Some (r, rest)
            | _ => None
            end
          else if Ascii.eqb c "[" then
            match parse_set s' with
            | Some (cs, rest) => Some (Cls (CSet cs), rest)
            | None => None
            end
          else if Ascii.eqb c "\" then
            match s' with
            | String e rest =>
                match parse_escape e with
                | Some r => Some (r, rest)
                | None => None
                end
            | EmptyString => None
            end
          else if Ascii.eqb c "." then Some (Cls CDot, s')
          else if is_meta c then None
          else Some (Chr c, s')
      end
  end.

(** [re.compile]: [None] stands for a pattern outside the fragment. *)
Definition compile (pattern : string) : option regex :=
  match parse_alt (3 * String.length pattern + 3) pattern with
  | Some (r, EmptyString) => Some r
  | _ => None
  end.

Definition eq_icase (p c : ascii) : bool :=
  Ascii.eqb (Py.lower_char p) (Py.lower_char c).

Definition in_cset (cs : cset) (c : ascii) : bool :=
  match cs with
  | CDot => negb (Ascii.eqb c (ascii_of_nat 10))
  | CSpace => Py.isspace c
  | CSet l => existsb (fun p => eq_icase p c) l
  end.

Definition word_before (prev : option ascii) : bool :=
  match prev with
  | Some c => Py.isword c
  | None => false
  end.

Definition word_after (s : string) : bool :=
  match s with
  | String c _ => Py.isword c
  | EmptyString => false
  end.

(** [\b]: exactly one of the two neighbours is a word character. *)
Definition at_boundary (prev : option ascii) (s : string) : bool :=
  xorb (word_before prev) (word_after s).

(** A backtracking matcher in continuation-passing style: [rmatch r prev s k]
    holds when [r] matches a prefix of [s], [prev] being the character before
    it, and [k] accepts what follows. *)
Fixpoint rmatch (r : regex) (prev : option ascii) (s : string)
    (k : option ascii -> string -> bool) {struct r} : bool :=
  match r with
  | Void => false
  | Eps => k prev s
  | Chr p =>
      match s with
      | String c s' => eq_icase p c && k (Some c) s'
      | EmptyString => false
      end
  | Cls cs =>
      match s with
      | String c s' => in_cset cs c && k (Some c) s'
      | EmptyString => false
      end
  | Bnd => at_boundary prev s && k prev s
  | Seq r1 r2 => rmatch r1 prev s (fun p s' => rmatch r2 p s' k)
  | Alt r1 r2 => rmatch r1 prev s k || rmatch r2 prev s k
  | Opt r1 => rmatch r1 prev s k || k prev s
  | Star r1 =>
      (fix star (n : nat) (prev : option ascii) (s : string) : bool :=
         match n with
         | O => k prev s
         | S n' =>
             rmatch r1 prev s
               (fun p s' =>
                  (String.length s' <? String.length s)%nat && star n' p s')
             || k prev s
         end) (String.length s) prev s
  end.

(** A match starting at any position of the text. *)
Fixpoint search_from (r : regex) (prev : option ascii) (s : string) : bool :=
  rmatch r prev s (fun _ _ => true)
  || match s with
     | String c s' => search_from r (Some c) s'
     | EmptyString => false
     end.

(** [re.search(pattern, text, flags=re.I)] as a truth value. *)
Definition search (pattern text : string) : bool :=
  match compile pattern with
  | Some r => search_from r None text
  | None => false
  end.

End Re.

(** ** chat_metrics.py: classification *)

Definition DEBUG_PATTERNS : list string :=
  [ "\b(error|exception|traceback|stack\s*trace|crash|panic|bug|fix|regression)\b";
    "\b(failed|failing|doesn'?t work|broken|hangs|timeout|segfault)\b";
    "\b(404|401|500|403|502|503)\b";
    "\b(null reference|undefined|TypeError|NameError|KeyError|IndexError|ReferenceError)\b";
    "\b(log|stderr|stdout|console\.log|print\(.*\)|logger)\b";
    "\b(build failed|compile error|lint error|tsc error|pytest failed|unit test failed)\b";
    "\b(deploy fail|rollback|hotfix|incident)\b" ].

Definition FEATURE_PATTERNS : list string :=
  [ "\b(implement|add|create|build|ship|scaffold|wire|integrate|hook up)\b";
    "\b(feature|endpoint|api|component|screen|ui|route|schema|migration|model)\b";
    "\b(refactor|optimi[sz]e|rewrite)\b" ].

Definition TEST_DOCS_CI_PATTERNS : list string :=
  [ "\b(test|unit test|e2e|integration test|playwright|pytest|jest)\b";
    "\b(doc[s]?|readme|changelog|prd|adr|spec)\b";
    "\b(ci|pipeline|lint|typecheck|tsc|ruff|black|pre-commit|github actions|prisma migrate|alembic)\b" ].

Definition any_match (text : string) (patterns : list string) : bool :=
  existsb (fun p => Re.search p text) patterns.

Inductive category :=
| DEBUG_LOG
| FEATURE_DEV
| TEST_DOCS_CI
| OTHER.

(** The label as the program writes it. *)
Definition category_name (c : category) : string :=
  match c with
  | DEBUG_LOG => "DEBUG_LOG"
  | FEATURE_DEV => "FEATURE_DEV"
  | TEST_DOCS_CI => "TEST_DOCS_CI"
  | OTHER => "OTHER"
  end.

Definition MODE_TEST : string := "\bMODE:\s*TEST\b".
Definition MODE_DOCS : string := "\bMODE:\s*DOCS\b".
Definition MODE_ASK : string := "\bMODE:\s*ASK\b".
Definition MODE_PLAN : string := "\bMODE:\s*PLAN\b".
Definition MODE_BUILD : string := "\bMODE:\s*BUILD\b".

(** The text both texts are classified on. *)
Definition blob_of (user_text assistant_text : string) : string :=
  Py.lower (user_text ++ Py.NL ++ assistant_text).

Definition classify_turn (user_text assistant_text : string) : category :=
  let blob := blob_of user_text assistant_text in
  if Re.search MODE_TEST blob then TEST_DOCS_CI
  else if Re.search MODE_DOCS blob then TEST_DOCS_CI
  else if Re.search MODE_ASK blob then OTHER
  else if Re.search MODE_PLAN blob then OTHER
  else if Re.search MODE_BUILD blob then FEATURE_DEV
  else if any_match blob DEBUG_PATTERNS then DEBUG_LOG
  else if any_match blob TEST_DOCS_CI_PATTERNS then TEST_DOCS_CI
  else if any_match blob FEATURE_PATTERNS then FEATURE_DEV
  else OTHER.

Definition token_estimate (text : string) : Z :=
  if Py.truthy text then Qceiling (inject_Z (Py.len text) / 4) else 0.

(** ** The [datetime] and [float] operations of chat_metrics.py *)

Module Dt.

Definition US_PER_SECOND : Z := 1000000.
Definition US_PER_MINUTE : Z := 60 * US_PER_SECOND.
Definition US_PER_DAY : Z := 86400 * US_PER_SECOND.

(** [datetime.max] is 9999-12-31 23:59:59.999999, the last microsecond of
    day 3652059 of the proleptic calendar. *)
Definition MAX_DATETIME : Z := 3652059 * US_PER_DAY - 1.

Definition datetime_ok (t : Z) : bool :=
  ((0 <=? t) && (t <=? MAX_DATETIME))%Z.

(** A [timedelta] holds between -999999999 days and just under 1000000000. *)
Definition timedelta_ok (d : Z) : bool :=
  ((- (999999999 * US_PER_DAY) <=? d) && (d <? 1000000000 * US_PER_DAY))%Z.

(** [timedelta(minutes=m)] for an [int] [m]. *)
Definition timedelta_minutes (m : Z) : result Z :=
  let d := m * US_PER_MINUTE in
  if timedelta_ok d then Ok d else Raise OverflowError.

(** [t + d] for a [datetime] [t] and a [timedelta] [d]. *)
Definition add (t d : Z) : result Z :=
  if datetime_ok (t + d) then Ok (t + d) else Raise OverflowError.

(** [d.total_seconds() / 60]. *)
Definition minutes_of (d : Z) : Q := (d # 1000000) / 60.

End Dt.

Module Fl.

(** [round(x, ndigits)]: the nearest multiple of [10 ^ -ndigits], a tie
    going to the even one. *)
Definition round (x : Q) (ndigits : nat) : Q :=
  let scale := Z.pow 10 (Z.of_nat ndigits) in
  let y := Qmult x (inject_Z scale) in
  let f := Qfloor y in
  let r := Qminus y (inject_Z f) in
  let n :=
    match Qcompare r (1 # 2) with
    | Lt => f
    | Gt => f + 1
    | Eq => if Z.even f then f else f + 1
    end in
  Qred (Qdiv (inject_Z n) (inject_Z scale)).

(** The truth value of a number. *)
Definition truthy (x : Q) : bool := negb (Qeq_bool x 0).

(** [x / y]. *)
Definition truediv (x y : Q) : result Q :=
  if Qeq_bool y 0 then Raise ZeroDivisionError else Ok (Qdiv x y).

End Fl.

(** ** chat_metrics.py: grouping into turns *)

Record message := Message {
  timestamp : Z;
  role : string;
  content : string
}.

(** A row of the per-turn table.  [user_time] is kept as the instant that
    [isoformat] renders, and the excerpt as its text and whether the
    ellipsis follows it. *)
Record turn := Turn {
  user_time : Z;
  duration_minutes : Q;
  turn_category : category;
  user_chars : Z;
  assistant_chars : Z;
  tokens_est : Z;
  user_excerpt : string * bool
}.

Fixpoint user_indices_from (i : nat) (msgs : list message) : list nat :=
  match msgs with
  | [] => []
  | m :: rest =>
      if String.eqb (role m) "user"
      then i :: user_indices_from (S i) rest
      else user_indices_from (S i) rest
  end.

Definition user_indices (msgs : list message) : list nat :=
  user_indices_from O msgs.

(** [msgs[i]]. *)
Definition item (msgs : list message) (i : nat) : result message :=
  match nth_error msgs i with
  | Some m => Ok m
  | None => Raise IndexError
  end.

(** The scan for the reply: the first assistant message met before any
    user message. *)
Fixpoint first_reply (rest : list message) : option message :=
  match rest with
  | [] => None
  | m :: rest' =>
      if String.eqb (role m) "assistant" then Some m
      else if String.eqb (role m) "user" then None
      else first_reply rest'
  end.

(** The instant the turn is measured up to. *)
Definition next_user_time (msgs : list message) (uis : list nat)
    (cap_minutes : Z) (idx : nat) (u : message) : result Z :=
  match nth_error uis (S idx) with
  | Some uj => m <- item msgs uj ;; Ok (timestamp m)
  | None =>
      d <- Dt.timedelta_minutes (cap_minutes + 5) ;;
      Dt.add (timestamp u) d
  end.

(** The credited duration, a [timedelta]. *)
Definition credited (next_u : Z) (u : message) (cap_minutes : Z) : result Z :=
  cap <- Dt.timedelta_minutes cap_minutes ;;
  Ok (Z.min (next_u - timestamp u) cap).

Definition excerpt (text : string) : string * bool :=
  (String.substring 0 140 text, (140 <? Py.len text)%Z).

(** The text of the reply attached to the message at [ui]: [a_text]. *)
Definition reply_text (msgs : list message) (ui : nat) : string :=
  match first_reply (skipn (S ui) msgs) with
  | Some a => content a
  | None => ""
  end.

(** The dictionary appended to [turns]. *)
Definition turn_record (u : message) (a_text : string) (dur : Z) : turn :=
  let cat := classify_turn (content u) a_text in
  let tokens := token_estimate (content u) + token_estimate a_text in
  {| user_time := timestamp u;
     duration_minutes := Fl.round (Dt.minutes_of dur) 2;
     turn_category := cat;
     user_chars := Py.len (content u);
     assistant_chars := Py.len a_text;
     tokens_est := tokens;
     user_excerpt := excerpt (content u) |}.

(** One pass of the loop body of [group_turns]. *)
Definition make_turn (msgs : list message) (uis : list nat)
    (cap_minutes : Z) (idx ui : nat) : result turn :=
  u <- item msgs ui ;;
  next_u <- next_user_time msgs uis cap_minutes idx u ;;
  let a_text := reply_text msgs ui in
  dur <- credited next_u u cap_minutes ;;
  Ok (turn_record u a_text dur).

Fixpoint turns_loop (msgs : list message) (uis : list nat) (cap_minutes : Z)
    (idx : nat) (todo : list nat) : result (list turn) :=
  match todo with
  | [] => Ok []
  | ui :: todo' =>
      t <- make_turn msgs uis cap_minutes idx ui ;;
      ts <- turns_loop msgs uis cap_minutes (S idx) todo' ;;
      Ok (t :: ts)
  end.

Definition group_turns (msgs : list message) (cap_minutes : Z)
    : result (list turn) :=
  let uis := user_indices msgs in
  turns_loop msgs uis cap_minutes O uis.

(** ** chat_metrics.py: aggregation *)

Record tally := Tally {
  mins : Q;
  tokens : Z
}.

Definition category_eqb (a b : category) : bool :=
  match a, b with
  | DEBUG_LOG, DEBUG_LOG | FEATURE_DEV, FEATURE_DEV
  | TEST_DOCS_CI, TEST_DOCS_CI | OTHER, OTHER => true
  | _, _ => false
  end.

(** The keys of [totals], in the order the dictionary is written. *)
Definition CATEGORIES : list category :=
  [DEBUG_LOG; FEATURE_DEV; TEST_DOCS_CI; OTHER].

Definition totals0 : category -> tally :=
  fun _ => {| mins := 0; tokens := 0 |}.

(** [totals[c]["mins"] += ...; totals[c]["tokens"] += ...]. *)
Definition add_turn (totals : category -> tally) (t : turn)
    : category -> tally :=
  fun c =>
    if category_eqb c (turn_category t)
    then {| mins := Qplus (mins (totals c)) (duration_minutes t);
            tokens := tokens (totals c) + tokens_est t |}
    else totals c.

Definition accumulate (turns : list turn) : category -> tally :=
  fold_left add_turn turns totals0.

Definition grand_mins_of (totals : category -> tally) : Q :=
  fold_left (fun acc c => Qplus acc (mins (totals c))) CATEGORIES (inject_Z 0).

Definition grand_tokens_of (totals : category -> tally) : Z :=
  fold_left (fun acc c => acc + tokens (totals c)) CATEGORIES 0.

(** [(v / grand * 100) if grand else 0]. *)
Definition percent (v grand : Q) : result Q :=
  if Fl.truthy grand
  then q <- Fl.truediv v grand ;; Ok (Qmult q (inject_Z 100))
  else Ok (inject_Z 0).

Record share := Share {
  share_mins : Q;
  mins_share : Q;
  share_tokens : Z;
  tokens_share : Q
}.

Definition share_entry (v : tally) (grand_mins : Q) (grand_tokens : Z)
    : result share :=
  pm <- percent (mins v) grand_mins ;;
  pt <- percent (inject_Z (tokens v)) (inject_Z grand_tokens) ;;
  Ok {| share_mins := Fl.round (mins v) 2;
        mins_share := Fl.round pm 1;
        share_tokens := tokens v;
        tokens_share := Fl.round pt 1 |}.

Record summary := Summary {
  summary_totals : category -> share;
  grand_mins : Q;
  grand_tokens : Z;
  notes : string
}.

Definition summarize (turns : list turn) : result summary :=
  let totals := accumulate turns in
  let gm := grand_mins_of totals in
  let gt := grand_tokens_of totals in
  d <- share_entry (totals DEBUG_LOG) gm gt ;;
  f <- share_entry (totals FEATURE_DEV) gm gt ;;
  t <- share_entry (totals TEST_DOCS_CI) gm gt ;;
  o <- share_entry (totals OTHER) gm gt ;;
  Ok {| summary_totals :=
          (fun c => match c with
                    | DEBUG_LOG => d
                    | FEATURE_DEV => f
                    | TEST_DOCS_CI => t
                    | OTHER => o
                    end);
        grand_mins := Fl.round gm 2;
        grand_tokens := gt;
        notes := "Time per turn capped; tokens are character-based estimates (chars/4)." |}.

(** ** cfpb_importer.py *)

(** A row of [csv.DictReader]: a column that is absent, or that the row is
    too short to fill, looks up as [None]. *)
Abbreviation row := (gmap string string).

(** [x or y], for an optional text [x]. *)
Definition or_else (x : option string) (y : string) : string :=
  match x with
  | Some v => if Py.truthy v then v else y
  | None => y
  end.

Record fact := Fact {
  plaintiff : string;
  defendant : string;
  incident : string;
  amount_claimed : option Z;
  venue : string;
  fact_category : string;
  incident_date : string
}.

Definition company_of (r : row) : string :=
  Py.strip (or_else (r !! "Company")
              (or_else (r !! "company") "Unknown Company")).

Definition narrative_of (r : row) : string :=
  Py.strip (or_else (r !! "Consumer complaint narrative")
              (or_else (r !! "consumer_complaint_narrative") "")).

Definition state_of (r : row) : string :=
  Py.strip (or_else (r !! "State") (or_else (r !! "state") "")).

Definition product_of (r : row) : string :=
  Py.strip (or_else (r !! "Product") (or_else (r !! "product") "")).

Definition date_received_of (r : row) : string :=
  Py.strip (or_else (r !! "Date received")
              (or_else (r !! "date_received") "")).

(** [not narrative or len(narrative) < 50]. *)
Definition skipped (narrative : string) : bool :=
  negb (Py.truthy narrative) || (Py.len narrative <? 50)%Z.

Definition fact_of (r : row) : fact :=
  {| plaintiff := "Consumer";
     defendant := company_of r;
     incident := narrative_of r;
     amount_claimed := None;
     venue := state_of r;
     fact_category := product_of r;
     incident_date := date_received_of r |}.

(** What opening and reading the file gives: the open fails, or the reader
    yields rows and then either ends or fails. *)
Inductive csv_source :=
| OpenFails (e : exn)
| Reader (rows : list row) (failure : option exn).

(** The [for] loop over [enumerate(reader)]. *)
Fixpoint convert_loop (limit i : Z) (rows : list row) (failure : option exn)
    (facts : list fact) : result (list fact) :=
  match rows with
  | [] =>
      match failure with
      | Some e => Raise e
      | None => Ok facts
      end
  | r :: rest =>
      if (limit <=? i)%Z then Ok facts
      else if skipped (narrative_of r)
           then convert_loop limit (i + 1) rest failure facts
           else convert_loop limit (i + 1) rest failure (facts ++ [fact_of r])
  end.

Definition convert_body (src : csv_source) (limit : Z) : result (list fact) :=
  match src with
  | OpenFails e => Raise e
  | Reader rows failure => convert_loop limit 0 rows failure []
  end.

Definition exn_text (e : exn) : string :=
  match e with
  | FileNotFoundError => "No such file or directory"
  | ZeroDivisionError => "division by zero"
  | OverflowError => "date value out of range"
  | AttributeError => "object has no attribute"
  | IndexError => "list index out of range"
  | ValueError msg => msg
  | OtherError msg => msg
  end.

(** The converter on the path [csv_path], whose file reads as [src]: the
    facts returned and the lines printed. *)
Definition convert_complaints_to_facts (csv_path : string) (src : csv_source)
    (limit : Z) : list fact * list string :=
  match convert_body src limit with
  | Ok facts =>
      (facts,
       [("Converted " ++ pretty (Z.of_nat (List.length facts))
           ++ " complaints to facts JSON")%string])
  | Raise FileNotFoundError =>
      ([],
       [("Error: CSV file not found at " ++ csv_path)%string;
        (Py.NL ++ "To get CFPB data:")%string;
        "1. Visit https://www.consumerfinance.gov/data-research/consumer-complaints/";
        "2. Click 'Export data' and download CSV with complaint narratives";
        "3. Save as data/complaints.csv"])
  | Raise e => ([], [("Error reading CSV: " ++ exn_text e)%string])
  end.

(** ** [datetime.strptime], for the directives of [DT_FORMATS]

    CPython turns the format into a pattern: a directive becomes a group of
    ordered alternatives, a run of blanks becomes [\s+], any other character
    stands for itself without regard to case.  The pattern must match at the
    start of the text and leave nothing over, and the fields must make a
    date. *)

Module Strptime.

Inductive token :=
| Dir (d : ascii)
| Blanks
| Lit (c : ascii).

Fixpoint tokens (blank_before : bool) (fmt : string) : option (list token) :=
  match fmt with
  | EmptyString => Some []
  | String "%" (String d rest) =>
      match tokens false rest with
      | Some ts => Some (Dir d :: ts)
      | None => None
      end
  | String "%" EmptyString => None
  | String c rest =>
      match tokens (Py.isspace c) rest with
      | Some ts =>
          if Py.isspace c
          then Some (if blank_before then ts else Blanks :: ts)
          else Some (Lit c :: ts)
      | None => None
      end
  end.

Definition digit (lo hi : nat) (c : ascii) : bool :=
  let n := nat_of_ascii c in
  ((48 + lo <=? n) && (n <=? 48 + hi))%nat.

Definition any_digit : ascii -> bool := digit 0 9.
Definition blank (c : ascii) : bool := Ascii.eqb c " ".

(** The alternatives of a directive, each a list of character tests. *)
Definition alternatives (d : ascii) : option (list (list (ascii -> bool))) :=
  if Ascii.eqb d "d" then
    Some [[digit 3 3; digit 0 1]; [digit 1 2; any_digit];
          [digit 0 0; digit 1 9]; [digit 1 9]; [blank; digit 1 9]]
  else if Ascii.eqb d "f" then
    Some [repeat any_digit 6; repeat any_digit 5; repeat any_digit 4;
          repeat any_digit 3; repeat any_digit 2; repeat any_digit 1]
  else if Ascii.eqb d "H" then
    Some [[digit 2 2; digit 0 3]; [digit 0 1; any_digit]; [any_digit]]
  else if Ascii.eqb d "m" then
    Some [[digit 1 1; digit 0 2]; [digit 0 0; digit 1 9]; [digit 1 9]]
  else if Ascii.eqb d "M" then
    Some [[digit 0 5; any_digit]; [any_digit]]
  else if Ascii.eqb d "S" then
    Some [[digit 6 6; digit 0 1]; [digit 0 5; any_digit]; [any_digit]]
  else if Ascii.eqb d "y" then
    Some [[any_digit; any_digit]]
  else if Ascii.eqb d "Y" then
    Some [repeat any_digit 4]
  else None.

Fixpoint take (tests : list (ascii -> bool)) (s : string)
    : option (string * string) :=
  match tests with
  | [] => Some (EmptyString, s)
  | t :: tests' =>
      match s with
      | String c s' =>
          if t c then
            match take tests' s' with
            | Some (m, rest) => Some (String c m, rest)
            | None => None
            end
          else None
      | EmptyString => None
      end
  end.

Definition fields := list (ascii * string).

(** The backtracking match: alternatives in order, blanks longest first. *)
Fixpoint run (ts : list token) (s : string) (acc : fields)
    : option (fields * string) :=
  match ts with
  | [] => Some (acc, s)
  | Lit c :: ts' =>
      match s with
      | String c' s' => if Re.eq_icase c c' then run ts' s' acc else None
      | EmptyString => None
      end
  | Blanks :: ts' =>
      (fix blanks (s : string) : option (fields * string) :=
         match s with
         | String c s' =>
             if Py.isspace c then
               match blanks s' with
               | Some r => Some r
               | None => run ts' s' acc
               end
             else None
         | EmptyString => None
         end) s
  | Dir d :: ts' =>
      match alternatives d with
      | Some alts =>
          (fix try (alts : list (list (ascii -> bool)))
             : option (fields * string) :=
             match alts with
             | [] => None
             | a :: alts' =>
                 match take a s with
                 | Some (m, rest) =>
                     match run ts' rest (acc ++ [(d, m)]) with
                     | Some r => Some r
                     | None => try alts'
                     end
                 | None => try alts'
                 end
             end) alts
      | None => None
      end
  end.

(** [int] of a text of digits, blanks stripped. *)
Fixpoint int_of (acc : Z) (s : string) : Z :=
  match s with
  | EmptyString => acc
  | String c s' =>
      if any_digit c
      then int_of (10 * acc + Z.of_nat (nat_of_ascii c - 48)) s'
      else int_of acc s'
  end.

Fixpoint field (d : ascii) (fs : fields) : option string :=
  match fs with
  | [] => None
  | (d', m) :: fs' =>
      match field d fs' with
      | Some later => Some later
      | None => if Ascii.eqb d d' then Some m else None
      end
  end.

Definition number (d : ascii) (fs : fields) (default : Z) : Z :=
  match field d fs with
  | Some m => int_of 0 m
  | None => default
  end.

Definition year_of (fs : fields) : Z :=
  match field "Y" fs, field "y" fs with
  | Some m, _ => int_of 0 m
  | None, Some m =>
      let y := int_of 0 m in if (y <=? 68)%Z then y + 2000 else y + 1900
  | None, None => 1900
  end.

Definition fraction_of (fs : fields) : Z :=
  match field "f" fs with
  | Some m => int_of 0 m * Z.pow 10 (6 - Z.of_nat (String.length m))
  | None => 0
  end.

Definition is_leap (y : Z) : bool :=
  ((y mod 4 =? 0) && (negb (y mod 100 =? 0) || (y mod 400 =? 0)))%Z.

Definition days_in_month (y m : Z) : Z :=
  if (m =? 2)%Z then (if is_leap y then 29 else 28)
  else if ((m =? 4) || (m =? 6) || (m =? 9) || (m =? 11))%Z then 30
  else 31.

Definition days_before_year (y : Z) : Z :=
  let p := y - 1 in p * 365 + p / 4 - p / 100 + p / 400.

Fixpoint days_before_month (y : Z) (m : nat) : Z :=
  match m with
  | O => 0
  | S O => 0
  | S m' => days_before_month y m' + days_in_month y (Z.of_nat m')
  end.

(** [datetime(year, month, day, hour, minute, second, microsecond)] as an
    instant; [None] for a [ValueError]. *)
Definition datetime (y mo d h mi s us : Z) : option Z :=
  if ((1 <=? y) && (y <=? 9999) && (1 <=? mo) && (mo <=? 12)
      && (1 <=? d) && (d <=? days_in_month y mo)
      && (0 <=? h) && (h <=? 23) && (0 <=? mi) && (mi <=? 59)
      && (0 <=? s) && (s <=? 59) && (0 <=? us) && (us <=? 999999))%Z
  then
    let ordinal := days_before_year y + days_before_month y (Z.to_nat mo) + d in
    Some ((((ordinal - 1) * 24 + h) * 60 + mi) * 60 * 1000000
          + s * 1000000 + us)
  else None.

(** [datetime.strptime(data, fmt)]; [None] for a [ValueError]. *)
Definition strptime (data fmt : string) : option Z :=
  match tokens false fmt with
  | Some ts =>
      match run ts data [] with
      | Some (fs, EmptyString) =>
          datetime (year_of fs) (number "m" fs 1) (number "d" fs 1)
            (number "H" fs 0) (number "M" fs 0) (number "S" fs 0)
            (fraction_of fs)
      | _ => None
      end
  | None => None
  end.

End Strptime.

(** ** chat_metrics.py: loading the messages *)

Definition DT_FORMATS : list string :=
  [ "%Y-%m-%dT%H:%M:%S.%fZ";
    "%Y-%m-%dT%H:%M:%SZ";
    "%Y-%m-%d %H:%M:%S";
    "%Y-%m-%d %H:%M";
    "%m/%d/%Y %H:%M";
    "%m/%d/%y %H:%M" ].

(** A value of a JSON object's field: a text, or anything else (a number, a
    boolean, a list, an object), of which the loader uses the truth value
    and what [str] renders.  A field that is [null] looks up like an absent
    one. *)
Inductive pyval :=
| PyStr (s : string)
| PyOther (truth : bool) (repr : string).

Abbreviation json_object := (gmap string pyval).

Definition val_truthy (v : option pyval) : bool :=
  match v with
  | Some (PyStr s) => Py.truthy s
  | Some (PyOther b _) => b
  | None => false
  end.

(** [x or y]. *)
Definition por (x y : option pyval) : option pyval :=
  if val_truthy x then x else y.

(** [v.lower()]: only a text has the method. *)
Definition val_lower (v : option pyval) : result string :=
  match v with
  | Some (PyStr s) => Ok (Py.lower s)
  | _ => Raise AttributeError
  end.

(** [str(v)]. *)
Definition val_str (v : option pyval) : string :=
  match v with
  | Some (PyStr s) => s
  | Some (PyOther _ repr) => repr
  | None => "None"
  end.

(** [s.replace("Z", "")]. *)
Fixpoint drop_Z (s : string) : string :=
  match s with
  | EmptyString => EmptyString
  | String c s' => if Ascii.eqb c "Z" then drop_Z s' else String c (drop_Z s')
  end.

(** What the file holds once it is parsed in the chosen format: the objects
    of the JSON list, or the rows of the table. *)
Inductive chat_source :=
| JsonItems (items : list json_object)
| CsvRows (rows : list row).

(** [msgs.sort(key=lambda m: m["timestamp"])]: the sort is stable, so its
    result is that of inserting each message before the later ones that are
    not earlier in time. *)
Fixpoint insert_by_time (m : message) (sorted : list message) : list message :=
  match sorted with
  | [] => [m]
  | x :: rest =>
      if (timestamp m <=? timestamp x)%Z then m :: sorted
      else x :: insert_by_time m rest
  end.

Fixpoint sort_by_time (msgs : list message) : list message :=
  match msgs with
  | [] => []
  | m :: rest => insert_by_time m (sort_by_time rest)
  end.

Section Loader.

(** [datetime.fromisoformat], whose grammar depends on the interpreter's
    version: any function from texts to naive instants. *)
Variable fromisoformat : string -> option Z.

Fixpoint try_formats (s : string) (fmts : list string) : option Z :=
  match fmts with
  | [] => None
  | fmt :: fmts' =>
      match Strptime.strptime s fmt with
      | Some dt => Some dt
      | None => try_formats s fmts'
      end
  end.

Definition parse_dt (s : string) : result Z :=
  let s := Py.strip s in
  match try_formats s DT_FORMATS with
  | Some dt => Ok dt
  | None =>
      match fromisoformat (drop_Z s) with
      | Some dt => Ok dt
      | None =>
          Raise (ValueError ("Unrecognized timestamp format: " ++ s)%string)
      end
  end.

(** [parse_dt(ts)] on a value that need not be a text. *)
Definition parse_dt_val (ts : option pyval) : result Z :=
  match ts with
  | Some (PyStr s) => parse_dt s
  | _ => Raise AttributeError
  end.

(** The body of the loop over the JSON objects: [None] for [continue]. *)
Definition json_message (m : json_object) : result (option message) :=
  let ts := por (m !! "timestamp")
              (por (m !! "time") (por (m !! "created_at") (m !! "date"))) in
  role <- val_lower (por (m !! "role") (Some (PyStr ""))) ;;
  let content := por (m !! "content")
                   (por (m !! "text") (Some (PyStr ""))) in
  if negb (val_truthy ts) || negb (Py.truthy role) then Ok None
  else match parse_dt_val ts with
       | Raise _ => Ok None
       | Ok dt =>
           Ok (Some {| timestamp := dt; role := role;
                       content := val_str content |})
       end.

(** The body of the loop over the rows of the table. *)
Definition csv_message (r : row) : option message :=
  let ts := Py.strip (or_else (r !! "timestamp")
              (or_else (r !! "time")
                 (or_else (r !! "created_at") (or_else (r !! "date") "")))) in
  let role := Py.lower (Py.strip (or_else (r !! "role") "")) in
  let content :=
    Py.strip (or_else (r !! "content") (or_else (r !! "text") "")) in
  if negb (Py.truthy ts) || negb (Py.truthy role) then None
  else match parse_dt ts with
       | Raise _ => None
       | Ok dt => Some {| timestamp := dt; role := role; content := content |}
       end.

Fixpoint collect_json (items : list json_object) : result (list message) :=
  match items with
  | [] => Ok []
  | m :: rest =>
      o <- json_message m ;;
      msgs <- collect_json rest ;;
      Ok (match o with Some msg => msg :: msgs | None => msgs end)
  end.

Fixpoint collect_csv (rows : list row) : list message :=
  match rows with
  | [] => []
  | r :: rest =>
      match csv_message r with
      | Some msg => msg :: collect_csv rest
      | None => collect_csv rest
      end
  end.

(** The messages appended to [msgs], in the order they are met. *)
Definition collect (src : chat_source) : result (list message) :=
  match src with
  | JsonItems items => collect_json items
  | CsvRows rows => Ok (collect_csv rows)
  end.

Definition read_chat (src : chat_source) : result (list message) :=
  msgs <- collect src ;;
  Ok (sort_by_time msgs).

End Loader.

(** * The vocabulary of the properties *)

(** The classifier as the specification words it: an ordered list of rules,
    each a test on the text and a label, the first rule whose test holds
    giving the label, and [OTHER] when none does. *)
Definition spec_rules : list ((string -> bool) * category) :=
  [ (fun b => Re.search MODE_TEST b || Re.search MODE_DOCS b, TEST_DOCS_CI);
    (fun b => Re.search MODE_ASK b || Re.search MODE_PLAN b, OTHER);
    (fun b => Re.search MODE_BUILD b, FEATURE_DEV);
    (fun b => any_match b DEBUG_PATTERNS, DEBUG_LOG);
    (fun b => any_match b TEST_DOCS_CI_PATTERNS, TEST_DOCS_CI);
    (fun b => any_match b FEATURE_PATTERNS, FEATURE_DEV) ].

Fixpoint first_match (rules : list ((string -> bool) * category))
    (blob : string) : category :=
  match rules with
  | [] => OTHER
  | (test, label) :: rules' =>
      if test blob then label else first_match rules' blob
  end.

Definition classify_spec (user_text assistant_text : string) : category :=
  first_match spec_rules (blob_of user_text assistant_text).

(** No explicit mode marker in the text. *)
Definition no_marker (blob : string) : Prop :=
  Re.search MODE_TEST blob = false /\ Re.search MODE_DOCS blob = false
  /\ Re.search MODE_ASK blob = false /\ Re.search MODE_PLAN blob = false
  /\ Re.search MODE_BUILD blob = false.

(** [w] occurs in [s]. *)
Definition contains (w s : string) : Prop :=
  exists pre post, s = (pre ++ w ++ post)%string.

Fixpoint last_char (prev : option ascii) (s : string) : option ascii :=
  match s with
  | EmptyString => prev
  | String c s' => last_char (Some c) s'
  end.

(** [w] occurs in [s] as a whole word: no word character stands right
    before or right after the occurrence. *)
Definition whole_word (w s : string) : Prop :=
  exists pre post,
    s = (pre ++ w ++ post)%string
    /\ Re.word_before (last_char None pre) = false
    /\ Re.word_after post = false.

(** The ceiling of a quarter of a count of characters. *)
Definition ceil4 (n : Z) : Z := Qceiling (inject_Z n / 4).



(** An instant written as year-month-day hour:minute:second. *)
Definition at_time (s : string) : Z :=
  match Strptime.strptime s "%Y-%m-%d %H:%M:%S" with
  | Some t => t
  | None => 0
  end.

(** Two initiating messages 35 minutes apart. *)
Definition two_users_35_apart : list message :=
  [ {| timestamp := at_time "2025-11-10 10:00:00"; role := "user";
       content := "first question" |};
    {| timestamp := at_time "2025-11-10 10:35:00"; role := "user";
       content := "second question" |} ].

(** A one-character question and its one-character answer. *)
Definition one_char_each : list message :=
  [ {| timestamp := at_time "2025-11-10 10:00:00"; role := "user";
       content := "a" |};
    {| timestamp := at_time "2025-11-10 10:01:00"; role := "assistant";
       content := "b" |} ].

(** A row passes the filter. *)
Definition qualifies (r : row) : bool := negb (skipped (narrative_of r)).

(** The facts of the rows that pass the filter, in the order of the rows. *)
Definition kept (rows : list row) : list fact :=
  map fact_of (List.filter qualifies rows).

(** The facts the converter returns. *)
Definition facts_of (csv_path : string) (src : csv_source) (limit : Z)
    : list fact :=
  fst (convert_complaints_to_facts csv_path src limit).

(** The lines the converter prints. *)
Definition printed (csv_path : string) (src : csv_source) (limit : Z)
    : list string :=
  snd (convert_complaints_to_facts csv_path src limit).

(** Every character of the text is a blank. *)
Fixpoint blank_only (s : string) : bool :=
  match s with
  | EmptyString => true
  | String c s' => Py.isspace c && blank_only s'
  end.

(** A field that is absent or holds the empty text. *)
Definition missing (x : option string) : Prop := x = None \/ x = Some "".

Definition long_narrative : string :=
  "The bank charged a fee that was never disclosed to me.".

Definition good_row : row :=
  <["Company" := "Acme Bank"]>
    (<["Consumer complaint narrative" := long_narrative]> ∅).

Definition short_row : row :=
  <["Company" := "Acme Bank"]>
    (<["Consumer complaint narrative" := "Too short."]> ∅).

Definition blank_company_row : row :=
  <["Company" := "   "]>
    (<["Consumer complaint narrative" := long_narrative]> ∅).

(** A [fromisoformat] that accepts no text.  The examples give timestamps
    that a format of [DT_FORMATS] parses, which never reach it, or a text
    that is no date in any notation. *)
Definition no_isoformat : string -> option Z := fun _ => None.

(** Ascending order of time. *)
Definition time_le (a b : message) : Prop := timestamp a <= timestamp b.

(** The messages stamped [t], in the order the list has them. *)
Definition stamped (t : Z) (msgs : list message) : list message :=
  List.filter (fun m => (timestamp m =? t)%Z) msgs.

Definition json_text_message (ts r c : string) : json_object :=
  <["timestamp" := PyStr ts]> (<["role" := PyStr r]>
    (<["content" := PyStr c]> ∅)).

(** Three objects out of chronological order, two of them at one instant. *)
Definition unordered_items : list json_object :=
  [ json_text_message "2025-11-10 10:05:00" "user" "later";
    json_text_message "2025-11-10T10:00:00Z" "assistant" "earlier, first";
    json_text_message "2025-11-10 10:00" "user" "earlier, second" ].

(** The timestamp and the role the JSON loop reads off an object. *)
Definition json_ts (m : json_object) : option pyval :=
  por (m !! "timestamp")
    (por (m !! "time") (por (m !! "created_at") (m !! "date"))).

Definition json_role (m : json_object) : option pyval :=
  por (m !! "role") (Some (PyStr "")).

(** The role field is a text, or is absent or false. *)
Definition role_is_text (m : json_object) : Prop :=
  exists s, json_role m = Some (PyStr s).

(** The timestamp and the role the CSV loop reads off a row. *)
Definition csv_ts (r : row) : string :=
  Py.strip (or_else (r !! "timestamp")
              (or_else (r !! "time")
                 (or_else (r !! "created_at") (or_else (r !! "date") "")))).

Definition csv_role (r : row) : string :=
  Py.lower (Py.strip (or_else (r !! "role") "")).

(** A system message, and an object whose role is the number 5. *)
Definition system_item : json_object :=
  json_text_message "2025-11-10 10:00:00" "System" "You are a helpful assistant.".

Definition numeric_role_item : json_object :=
  <["role" := PyOther true "5"]> (<["content" := PyStr "no timestamp"]> ∅).

(** A category's share as the specification defines it: the category total
    over the grand total, times 100, and 0 when the grand total is zero. *)
Definition share_pct (v grand : Q) : Q :=
  if Qeq_bool grand 0 then inject_Z 0
  else Qmult (Qdiv v grand) (inject_Z 100).

(** The fact was made from a row that passes the filter. *)
Definition from_qualifying_row (f : fact) : Prop :=
  exists r, f = fact_of r /\ qualifies r = true.

(** ** cfpb_importer.py: [main]

    What a run leaves behind: the lines printed and, when the output file is
    written, the facts whose JSON rendering it holds.  The file system is
    taken to accept the directory and the file. *)
Record import_run := ImportRun {
  run_lines : list string;
  run_written : option (list fact)
}.

Definition NO_FACTS_NOTICE : string :=
  (Py.NL ++ "No facts generated. Please check your input file.")%string.

Section ImporterMain.

(** [json.dumps(fact, indent=2)], of which the preview shows the start. *)
Variable json_dumps : fact -> string.

Definition importer_main (input output : string) (src : csv_source)
    (limit : Z) : import_run :=
  let (facts, lines) := convert_complaints_to_facts input src limit in
  match facts with
  | [] =>
      {| run_lines := lines ++ [NO_FACTS_NOTICE]; run_written := None |}
  | first :: _ =>
      {| run_lines :=
           lines
           ++ [(Py.NL ++ "Wrote " ++ pretty (Z.of_nat (List.length facts))
                ++ " facts to " ++ output)%string;
               "First fact preview:";
               (String.substring 0 500 (json_dumps first) ++ "...")%string];
         run_written := Some facts |}
  end.

End ImporterMain.

(** No character of the text is a word character. *)
Fixpoint no_word_chars (s : string) : bool :=
  match s with
  | EmptyString => true
  | String c s' => negb (Py.isword c) && no_word_chars s'
  end.

(** The pattern opens with [\b]. *)
Definition opens_with_boundary (pattern : string) : bool :=
  match Re.compile pattern with
  | Some (Re.Seq Re.Bnd _) => true
  | _ => false
  end.

(** The text holds the mode marker of the word [w]: "mode:", any run of
    blanks, and [w], with no word character right before or right after. *)
Definition has_marker (w blob : string) : Prop :=
  exists pre ws post,
    blob = (pre ++ "mode:" ++ ws ++ w ++ post)%string
    /\ Re.word_before (last_char None pre) = false
    /\ blank_only ws = true
    /\ Re.word_after post = false.

(** The initiating messages, in the order of the list. *)
Definition is_user (m : message) : bool := String.eqb (role m) "user".

Definition user_messages (msgs : list message) : list message :=
  List.filter is_user msgs.

(** A message that neither starts a turn nor answers one. *)
Definition other_role (m : message) : bool :=
  negb (String.eqb (role m) "assistant") && negb (String.eqb (role m) "user").

(** The cap and the sentinel are durations, and the sentinel can be added to
    every message's instant. *)
Definition cap_in_range (msgs : list message) (cap_minutes : Z) : Prop :=
  Dt.timedelta_ok (cap_minutes * Dt.US_PER_MINUTE) = true
  /\ Dt.timedelta_ok ((cap_minutes + 5) * Dt.US_PER_MINUTE) = true
  /\ forall m, In m msgs ->
       Dt.datetime_ok (timestamp m + (cap_minutes + 5) * Dt.US_PER_MINUTE)
       = true.

(** A question, a note of the system, the answer and a second question. *)
Definition deploy_chat : list message :=
  [ {| timestamp := at_time "2025-11-10 10:00:00"; role := "user";
       content := "getting a 500 error on deploy" |};
    {| timestamp := at_time "2025-11-10 10:00:30"; role := "system";
       content := "context trimmed" |};
    {| timestamp := at_time "2025-11-10 10:01:00"; role := "assistant";
       content := "found it, rolling back" |};
    {| timestamp := at_time "2025-11-10 10:02:00"; role := "user";
       content := "thanks" |} ].

(** The credited minutes lie between nothing and the cap. *)
Definition within_cap (cap_minutes : Z) (t : turn) : Prop :=
  Qle (inject_Z 0) (duration_minutes t)
  /\ Qle (duration_minutes t) (inject_Z cap_minutes).

(** The turn [t] of the initiating message [u] is built on the reply text
    [a_text]: its length, the category and the token estimate show it. *)
Definition answered_by (u : message) (a_text : string) (t : turn) : Prop :=
  assistant_chars t = Py.len a_text
  /\ turn_category t = classify_turn (content u) a_text
  /\ tokens_est t = token_estimate (content u) + token_estimate a_text.

(** The sum of the token estimates of a list of turns. *)
Definition tokens_sum (turns : list turn) : Z :=
  fold_right (fun t acc => tokens_est t + acc) 0 turns.

(** The turns of one category. *)
Definition of_category (c : category) (turns : list turn) : list turn :=
  List.filter (fun t => category_eqb c (turn_category t)) turns.

(** A share that reads as a percentage. *)
Definition is_percentage (q : Q) : Prop :=
  Qle (inject_Z 0) q /\ Qle q (inject_Z 100).

(** The figures of a turn that [group_turns] can produce are not negative. *)
Definition nonnegative_turn (t : turn) : Prop :=
  0 <= tokens_est t /\ Qle (inject_Z 0) (duration_minutes t).

(** The turns of [deploy_chat], under the default cap. *)
Definition deploy_turns : list turn :=
  match group_turns deploy_chat 20 with
  | Ok turns => turns
  | Raise _ => []
  end.

(** A text with no blank at either end. *)
Definition trimmed (s : string) : Prop := Py.strip s = s.

(** A table whose cells are padded with blanks. *)
Definition padded_rows : list row :=
  [ <["timestamp" := " 2025-11-10 10:01:00 "]>
      (<["role" := " Assistant"]> (<["content" := "  found it  "]> ∅));
    <["time" := "2025-11-10 10:00:00"]>
      (<["role" := "  USER  "]> (<["text" := " it crashed "]> ∅)) ].

(** ** chat_metrics.py: [main]

    How a run ends, the file of the chat being parsed already: the patterns
    are printed and nothing is read; [SystemExit] is raised with a message;
    an exception goes up to the caller; or the table of the turns and the
    summary are written.  [chat_main] is [main] up to the point where the
    turns and the summary are at hand (lines 241 to 259), [Outputs] being
    what it hands on to be written; [chat_main_run] is the whole run, the
    output stage (lines 261 to 266) included.  What is printed on the
    console is left out. *)

Inductive run_end :=
| KeywordDump
| SystemExit (msg : string)
| Propagated (e : exn)
| Outputs (turns : list turn) (s : summary).

Section ChatMain.

Variable fromisoformat : string -> option Z.

Definition chat_main (keyword_dump : bool) (src : chat_source)
    (cap_mins : Z) : run_end :=
  if keyword_dump then KeywordDump
  else
    match read_chat fromisoformat src with
    | Raise e => Propagated e
    | Ok [] =>
        SystemExit "No messages parsed. Check --format and input structure."
    | Ok msgs =>
        match group_turns msgs cap_mins with
        | Raise e => Propagated e
        | Ok turns =>
            match summarize turns with
            | Raise e => Propagated e
            | Ok summary => Outputs turns summary
            end
        end
    end.

(** The output stage acts on the file system, which may refuse any of its
    steps: [os.makedirs(out, exist_ok=True)], [save_csv(turns, path)], and
    [open(path, "w")] followed by [json.dump(summary, f, indent=2)]. *)
Variable makedirs : string -> result unit.
Variable save_csv : list turn -> string -> result unit.
Variable dump_summary : summary -> string -> result unit.

(** [os.path.join]. *)
Variable path_join : string -> string -> string.

Definition write_outputs (out : string) (turns : list turn) (s : summary)
    : result unit :=
  made <- makedirs out ;;
  saved <- save_csv turns (path_join out "by_turn.csv") ;;
  dump_summary s (path_join out "summary.json").

Definition chat_main_run (keyword_dump : bool) (src : chat_source)
    (cap_mins : Z) (out : string) : run_end :=
  match chat_main keyword_dump src cap_mins with
  | Outputs turns summary =>
      match write_outputs out turns summary with
      | Ok _ => Outputs turns summary
      | Raise e => Propagated e
      end
  | ended => ended
  end.

End ChatMain.

(** A chat in which nobody of role "user" speaks. *)
Definition assistant_only : list json_object :=
  [ json_text_message "2025-11-10 10:00:00" "assistant" "hello";
    json_text_message "2025-11-10 10:01:00" "tool" "result" ].

(** The narrative cell of a row as the converter reads it: the text under
    "Consumer complaint narrative" or, when that column is absent or empty,
    the text under "consumer_complaint_narrative"; none when both are
    absent or empty. *)
Definition narrative_cell (r : row) : option string :=
  match r !! "Consumer complaint narrative" with
  | Some (String c s) => Some (String c s)
  | _ =>
      match r !! "consumer_complaint_narrative" with
      | Some (String c s) => Some (String c s)
      | _ => None
      end
  end.

(** The narrative is absent or, once its whitespace is trimmed, shorter
    than 50 characters. *)
Definition absent_or_short (r : row) : Prop :=
  narrative_cell r = None
  \/ exists s, narrative_cell r = Some s /\ Py.len (Py.strip s) < 50.

(** Narratives of 49 and of 50 characters, in cells padded with blanks to
    more than 50. *)
Definition narrative_49 : string :=
  "The bank froze my account with no notice or cause".

Definition narrative_50 : string :=
  "The bank closed my account with no notice or cause".

Definition padded_49_row : row :=
  <["Consumer complaint narrative" := ("   " ++ narrative_49 ++ "    ")%string]> ∅.

Definition padded_50_row : row :=
  <["Company" := "Acme Bank"]>
    (<["consumer_complaint_narrative" := ("  " ++ narrative_50 ++ "  ")%string]> ∅).

(** The sum of the credited minutes of a list of turns. *)
Definition mins_sum (turns : list turn) : Q :=
  fold_right (fun t acc => Qplus (duration_minutes t) acc) (inject_Z 0) turns.

(** [x] gives [y] to [d] decimals: [x] is a whole number of units of
    [10 ^ -d] and lies no further than half a unit from [y].  Nothing is
    said of the way a tie is broken. *)
Definition to_decimals (d : nat) (x y : Q) : Prop :=
  let unit := Qinv (inject_Z (10 ^ Z.of_nat d)) in
  (exists k : Z, Qeq x (Qmult (inject_Z k) unit))
  /\ Qle (Qminus y (Qmult (1 # 2) unit)) x
  /\ Qle x (Qplus y (Qmult (1 # 2) unit)).

(** * Properties *)

(** ** The classifier *)

Lemma search_from_skip (r : Re.regex) (pre s : string) (prev : option ascii) :
  Re.rmatch r (last_char prev pre) s (fun _ _ => true) = true ->
  Re.search_from r prev (pre ++ s) = true.
Proof.
  revert prev. induction pre as [|c pre IH]; intros prev H; simpl in *.
  - destruct s; simpl; rewrite H; reflexivity.
  - rewrite (IH (Some c) H). apply orb_true_r.
Qed.

Lemma traceback_is_debug (blob : string) :
  whole_word "traceback" blob -> any_match blob DEBUG_PATTERNS = true.
Proof.
  intros [pre [post [-> [Hb Ha]]]].
  unfold any_match, DEBUG_PATTERNS. cbn [existsb].
  apply orb_true_iff. left.
  unfold Re.search.
  match goal with
  | |- context [Re.compile ?p] =>
      let r := eval vm_compute in (Re.compile p) in
      change (Re.compile p) with r
  end.
  apply search_from_skip.
  lazy beta iota delta [String.append]. cbn [Re.rmatch].
  unfold Re.at_boundary at 1. rewrite Hb.
  cbn. unfold Re.at_boundary. rewrite Ha. reflexivity.
Qed.

Lemma build_marker_is_feature (user_text assistant_text : string) :
  let blob := blob_of user_text assistant_text in
  Re.search MODE_BUILD blob = true ->
  Re.search MODE_TEST blob = false -> Re.search MODE_DOCS blob = false ->
  Re.search MODE_ASK blob = false -> Re.search MODE_PLAN blob = false ->
  classify_turn user_text assistant_text = FEATURE_DEV.
Proof.
  intros blob Hb Ht Hd Ha Hp. unfold classify_turn. fold blob.
  rewrite Ht, Hd, Ha, Hp, Hb. reflexivity.
Qed.

Lemma category_name_listed (c : category) :
  In (category_name c) ["DEBUG_LOG"; "FEATURE_DEV"; "TEST_DOCS_CI"; "OTHER"].
Proof. destruct c; simpl; auto. Qed.

(** C1 (amended).  The classifier is a total function into the four labels
    and is the first-match-wins rule list of the specification, read on the
    lower-cased text made of both texts joined by a line feed.  A text in
    which "traceback" stands as a whole word, with no mode marker, is
    [DEBUG_LOG] whatever else it holds; a text with a build marker and none
    of the test, docs, ask and plan markers is [FEATURE_DEV]. *)
Theorem classify_turn_first_match :
  (forall u a, classify_turn u a = classify_spec u a)
  /\ (forall u a,
        In (category_name (classify_turn u a))
          ["DEBUG_LOG"; "FEATURE_DEV"; "TEST_DOCS_CI"; "OTHER"])
  /\ (forall u a,
        whole_word "traceback" (blob_of u a) -> no_marker (blob_of u a) ->
        classify_turn u a = DEBUG_LOG)
  /\ (forall u a,
        Re.search MODE_BUILD (blob_of u a) = true ->
        Re.search MODE_TEST (blob_of u a) = false ->
        Re.search MODE_DOCS (blob_of u a) = false ->
        Re.search MODE_ASK (blob_of u a) = false ->
        Re.search MODE_PLAN (blob_of u a) = false ->
        classify_turn u a = FEATURE_DEV).
Proof.
  split; [|split; [|split]].
  - intros u a. unfold classify_turn, classify_spec, spec_rules, first_match.
    destruct (Re.search MODE_TEST _); [reflexivity|].
    destruct (Re.search MODE_DOCS _); [reflexivity|].
    destruct (Re.search MODE_ASK _); [reflexivity|].
    destruct (Re.search MODE_PLAN _); reflexivity.
  - intros u a. apply category_name_listed.
  - intros u a Hw (Ht & Hd & Ha & Hp & Hb). unfold classify_turn.
    rewrite Ht, Hd, Ha, Hp, Hb, (traceback_is_debug _ Hw). reflexivity.
  - intros u a. apply build_marker_is_feature.
Qed.

Lemma classify_turn_first_match_witness :
  classify_turn "implement the parser" "Traceback (most recent call last)"
  = DEBUG_LOG.
Proof.
  apply classify_turn_first_match.
  - exists ("implement the parser" ++ Py.NL)%string, " (most recent call last)".
    split; [reflexivity|split; reflexivity].
  - repeat split; vm_compute; reflexivity.
Defined.

(** C1 as stated fails: a text may hold "traceback" (and "implement") with
    no mode marker and not be [DEBUG_LOG], since the patterns match whole
    words; and a build marker yields to a test marker. *)
Lemma classify_turn_substring_counterexample :
  contains "traceback" (blob_of "please implement it" "the tracebacks are long")
  /\ contains "implement" (blob_of "please implement it" "the tracebacks are long")
  /\ no_marker (blob_of "please implement it" "the tracebacks are long")
  /\ classify_turn "please implement it" "the tracebacks are long" = FEATURE_DEV
  /\ FEATURE_DEV <> DEBUG_LOG
  /\ Re.search MODE_BUILD (blob_of "MODE: BUILD" "MODE: TEST") = true
  /\ classify_turn "MODE: BUILD" "MODE: TEST" = TEST_DOCS_CI
  /\ TEST_DOCS_CI <> FEATURE_DEV.
Proof.
  split.
  { exists ("please implement it" ++ Py.NL ++ "the ")%string, "s are long".
    reflexivity. }
  split.
  { exists "please ", (" it" ++ Py.NL ++ "the tracebacks are long")%string.
    reflexivity. }
  split; [repeat split; vm_compute; reflexivity|].
  split; [vm_compute; reflexivity|].
  split; [discriminate|].
  split; [vm_compute; reflexivity|].
  split; [vm_compute; reflexivity|discriminate].
Qed.

(** ** Turn grouping *)

Lemma bind_ok {A B} (m : result A) (f : A -> result B) (b : B) :
  bind m f = Ok b -> exists a, m = Ok a /\ f a = Ok b.
Proof. destruct m as [a|e]; simpl; [eauto|discriminate]. Qed.

Lemma user_indices_from_spec (msgs : list message) (i ui : nat) :
  In ui (user_indices_from i msgs) ->
  (i <= ui)%nat
  /\ exists m, nth_error msgs (ui - i) = Some m /\ role m = "user".
Proof.
  revert i. induction msgs as [|m msgs IH]; intros i H; simpl in H; [easy|].
  destruct (String.eqb (role m) "user") eqn:E.
  - destruct H as [<-|H].
    + split; [lia|]. exists m. rewrite Nat.sub_diag.
      split; [reflexivity|]. now apply String.eqb_eq.
    + destruct (IH _ H) as (Hle & m' & Hn & Hr). split; [lia|].
      exists m'. split; [|exact Hr].
      replace (ui - i)%nat with (S (ui - S i)) by lia. exact Hn.
  - destruct (IH _ H) as (Hle & m' & Hn & Hr). split; [lia|].
    exists m'. split; [|exact Hr].
    replace (ui - i)%nat with (S (ui - S i)) by lia. exact Hn.
Qed.

Lemma user_indices_spec (msgs : list message) (idx ui : nat) :
  nth_error (user_indices msgs) idx = Some ui ->
  exists m, nth_error msgs ui = Some m /\ role m = "user".
Proof.
  intros H. apply nth_error_In in H.
  destruct (user_indices_from_spec _ _ _ H) as (_ & m & Hn & Hr).
  rewrite Nat.sub_0_r in Hn. eauto.
Qed.

(** What one pass of the loop body yields. *)
Lemma make_turn_ok (msgs : list message) (uis : list nat) (cap_minutes : Z)
    (idx ui : nat) (t : turn) :
  make_turn msgs uis cap_minutes idx ui = Ok t ->
  exists u next_u dur,
    nth_error msgs ui = Some u
    /\ next_user_time msgs uis cap_minutes idx u = Ok next_u
    /\ credited next_u u cap_minutes = Ok dur
    /\ t = turn_record u (reply_text msgs ui) dur.
Proof.
  unfold make_turn. intros H.
  apply bind_ok in H as (u & Hu & H).
  apply bind_ok in H as (next_u & Hn & H).
  apply bind_ok in H as (dur & Hd & H).
  exists u, next_u, dur. unfold item in Hu.
  destruct (nth_error msgs ui) eqn:E; [|discriminate].
  injection Hu as ->. injection H as <-. auto.
Qed.

Lemma turns_loop_nth (msgs : list message) (uis : list nat) (cap_minutes : Z)
    (todo : list nat) :
  forall (idx : nat) (ts : list turn),
    turns_loop msgs uis cap_minutes idx todo = Ok ts ->
    length ts = length todo
    /\ forall (k : nat) (t : turn),
         nth_error ts k = Some t ->
         exists ui, nth_error todo k = Some ui
                    /\ make_turn msgs uis cap_minutes (idx + k) ui = Ok t.
Proof.
  induction todo as [|ui todo IH]; intros idx ts H; simpl in H.
  - injection H as <-. split; [reflexivity|]. intros [|k] t Hk; discriminate.
  - apply bind_ok in H as (t0 & Ht0 & H).
    apply bind_ok in H as (ts0 & Hts0 & H). injection H as <-.
    destruct (IH _ _ Hts0) as (Hlen & Hnth). split; [simpl; lia|].
    intros [|k] t Hk; simpl in Hk.
    + injection Hk as <-. exists ui. rewrite Nat.add_0_r. auto.
    + destruct (Hnth _ _ Hk) as (ui' & Hui & Hm). exists ui'.
      split; [exact Hui|]. now replace (idx + S k)%nat with (S idx + k)%nat by lia.
Qed.

Lemma timedelta_minutes_ok (m d : Z) :
  Dt.timedelta_minutes m = Ok d -> d = m * Dt.US_PER_MINUTE.
Proof.
  unfold Dt.timedelta_minutes.
  destruct (Dt.timedelta_ok _); [|discriminate]. now intros [= <-].
Qed.

Lemma datetime_add_ok (t d r : Z) : Dt.add t d = Ok r -> r = t + d.
Proof.
  unfold Dt.add. destruct (Dt.datetime_ok _); [|discriminate]. now intros [= <-].
Qed.




Lemma make_turn_returns (msgs : list message) (uis : list nat)
    (cap_minutes : Z) (idx ui : nat) :
  Dt.timedelta_ok (cap_minutes * Dt.US_PER_MINUTE) = true ->
  Dt.timedelta_ok ((cap_minutes + 5) * Dt.US_PER_MINUTE) = true ->
  (forall m, In m msgs ->
     Dt.datetime_ok (timestamp m + (cap_minutes + 5) * Dt.US_PER_MINUTE) = true) ->
  (forall uj, In uj uis -> exists m, nth_error msgs uj = Some m) ->
  (exists u, nth_error msgs ui = Some u) ->
  exists t, make_turn msgs uis cap_minutes idx ui = Ok t.
Proof.
  intros Hcap Hcap5 Hrange Huis [u Hu].
  unfold make_turn, item. rewrite Hu. cbn [bind].
  assert (Hn : exists next_u,
             next_user_time msgs uis cap_minutes idx u = Ok next_u).
  { unfold next_user_time.
    destruct (nth_error uis (S idx)) as [uj|] eqn:E.
    - destruct (Huis uj (nth_error_In _ _ E)) as [m Hm].
      unfold item. rewrite Hm. cbn [bind]. eauto.
    - unfold Dt.timedelta_minutes. rewrite Hcap5. cbn [bind].
      unfold Dt.add. rewrite (Hrange u (nth_error_In _ _ Hu)). eauto. }
  destruct Hn as [next_u ->]. cbn [bind].
  unfold credited, Dt.timedelta_minutes. rewrite Hcap. cbn [bind]. eauto.
Qed.

Lemma turns_loop_returns (msgs : list message) (uis : list nat)
    (cap_minutes : Z) (todo : list nat) :
  Dt.timedelta_ok (cap_minutes * Dt.US_PER_MINUTE) = true ->
  Dt.timedelta_ok ((cap_minutes + 5) * Dt.US_PER_MINUTE) = true ->
  (forall m, In m msgs ->
     Dt.datetime_ok (timestamp m + (cap_minutes + 5) * Dt.US_PER_MINUTE) = true) ->
  (forall uj, In uj uis -> exists m, nth_error msgs uj = Some m) ->
  (forall ui, In ui todo -> exists m, nth_error msgs ui = Some m) ->
  forall idx, exists ts, turns_loop msgs uis cap_minutes idx todo = Ok ts.
Proof.
  intros Hcap Hcap5 Hrange Huis.
  induction todo as [|ui todo IH]; intros Htodo idx; simpl; [eauto|].
  destruct (make_turn_returns msgs uis cap_minutes idx ui Hcap Hcap5 Hrange Huis)
    as [t ->]; [apply Htodo; now left|].
  destruct (IH (fun ui' H => Htodo ui' (or_intror H)) (S idx)) as [ts ->].
  cbn [bind]. eauto.
Qed.

(** [group_turns] returns a turn for each initiating message whenever the
    cap is a representable duration and no message lies within
    [cap_minutes + 5] minutes of the last representable instant. *)
Lemma group_turns_returns (msgs : list message) (cap_minutes : Z) :
  Dt.timedelta_ok (cap_minutes * Dt.US_PER_MINUTE) = true ->
  Dt.timedelta_ok ((cap_minutes + 5) * Dt.US_PER_MINUTE) = true ->
  (forall m, In m msgs ->
     Dt.datetime_ok (timestamp m + (cap_minutes + 5) * Dt.US_PER_MINUTE) = true) ->
  exists turns,
    group_turns msgs cap_minutes = Ok turns
    /\ length turns = length (user_indices msgs).
Proof.
  intros Hcap Hcap5 Hrange.
  assert (Hin : forall ui, In ui (user_indices msgs) ->
                exists m, nth_error msgs ui = Some m).
  { intros ui H. apply In_nth_error in H as [k Hk].
    destruct (user_indices_spec _ _ _ Hk) as (m & Hm & _). eauto. }
  destruct (turns_loop_returns msgs (user_indices msgs) cap_minutes
              (user_indices msgs) Hcap Hcap5 Hrange Hin Hin O) as [ts Hts].
  exists ts. split; [exact Hts|].
  now destruct (turns_loop_nth _ _ _ _ _ _ Hts).
Qed.


(** ** Token estimates *)

Lemma ceil4_div (n : Z) : ceil4 n = (n + 3) / 4.
Proof.
  unfold ceil4, Qceiling, Qfloor, Qdiv, Qmult, Qinv, Qopp, inject_Z.
  cbn [Qnum Qden]. rewrite Z.mul_1_r. change (Z.pos (1 * 4)) with 4.
  Z.div_mod_to_equations. lia.
Qed.

Lemma token_estimate_ceil4 (text : string) :
  token_estimate text = ceil4 (Py.len text).
Proof. destruct text; reflexivity. Qed.

(** C3 (amended).  The token estimate a turn records is the sum of the two
    sides' own estimates, each the ceiling of a quarter of its character
    count (0 for an empty text); it is at least the ceiling of a quarter of
    the total character count and at most one more. *)
Theorem group_turns_tokens (msgs : list message) (cap_minutes : Z)
    (turns : list turn) (idx : nat) (t : turn) :
  group_turns msgs cap_minutes = Ok turns ->
  nth_error turns idx = Some t ->
  (exists ui u,
     nth_error (user_indices msgs) idx = Some ui
     /\ nth_error msgs ui = Some u
     /\ user_chars t = Py.len (content u)
     /\ assistant_chars t = Py.len (reply_text msgs ui))
  /\ tokens_est t = ceil4 (user_chars t) + ceil4 (assistant_chars t)
  /\ ceil4 0 = 0
  /\ ceil4 (user_chars t + assistant_chars t) <= tokens_est t
  /\ tokens_est t <= ceil4 (user_chars t + assistant_chars t) + 1.
Proof.
  unfold group_turns. intros H Ht.
  destruct (turns_loop_nth _ _ _ _ _ _ H) as (_ & Hnth).
  destruct (Hnth _ _ Ht) as (ui & Hui & Hm). simpl in Hm.
  apply make_turn_ok in Hm as (u & next_u & dur & Hu & _ & _ & ->).
  split; [exists ui, u; auto|].
  cbn [tokens_est user_chars assistant_chars turn_record].
  rewrite !token_estimate_ceil4, !ceil4_div.
  split; [reflexivity|]. split; [reflexivity|].
  split; Z.div_mod_to_equations; lia.
Qed.

Lemma group_turns_tokens_witness :
  exists turns t,
    group_turns one_char_each 20 = Ok turns
    /\ nth_error turns 0 = Some t
    /\ tokens_est t = ceil4 (user_chars t) + ceil4 (assistant_chars t)
    /\ tokens_est t = 2.
Proof.
  assert (E : exists turns t,
             group_turns one_char_each 20 = Ok turns
             /\ nth_error turns 0 = Some t /\ tokens_est t = 2).
  { vm_compute. do 2 eexists. repeat split; reflexivity. }
  destruct E as (turns & t & E & Et & E2).
  exists turns, t. split; [exact E|]. split; [exact Et|].
  split; [|exact E2].
  apply (group_turns_tokens _ _ _ _ _ E Et).
Defined.

(** C3 as stated fails: one character on each side is estimated at two
    tokens, while a quarter of the two characters together rounds up to
    one. *)
Lemma group_turns_tokens_counterexample :
  exists t,
    group_turns one_char_each 20 = Ok [t]
    /\ user_chars t = 1 /\ assistant_chars t = 1
    /\ tokens_est t = 2
    /\ ceil4 (user_chars t + assistant_chars t) = 1.
Proof. vm_compute. eexists. repeat split; reflexivity. Qed.

(** ** The complaint converter *)

Lemma convert_loop_reads (limit : Z) (rows : list row) :
  forall (i : Z) (facts : list fact),
    convert_loop limit i rows None facts
    = Ok (facts ++ kept (firstn (Z.to_nat (limit - i)) rows)).
Proof.
  induction rows as [|r rows IH]; intros i facts; simpl.
  - rewrite firstn_nil. unfold kept. simpl. now rewrite app_nil_r.
  - destruct (Z.leb_spec limit i) as [Hle|Hlt].
    + replace (Z.to_nat (limit - i)) with O by lia.
      unfold kept. simpl. now rewrite app_nil_r.
    + replace (Z.to_nat (limit - i)) with (S (Z.to_nat (limit - (i + 1))))
        by lia.
      rewrite firstn_cons. unfold kept. cbn [List.filter]. unfold qualifies at 1.
      destruct (skipped (narrative_of r)); cbn [negb map]; rewrite IH.
      * reflexivity.
      * unfold kept. now rewrite <- app_assoc.
Qed.

Lemma convert_loop_fails (limit : Z) (e : exn) (rows : list row) :
  forall (i : Z) (facts : list fact),
    Z.of_nat (length rows) <= Z.max 0 (limit - i) ->
    convert_loop limit i rows (Some e) facts = Raise e.
Proof.
  induction rows as [|r rows IH]; intros i facts H; simpl; [reflexivity|].
  simpl length in H.
  destruct (Z.leb_spec limit i) as [Hle|Hlt]; [lia|].
  destruct (skipped (narrative_of r)); apply IH; lia.
Qed.

Lemma facts_of_reads (csv_path : string) (rows : list row) (limit : Z) :
  facts_of csv_path (Reader rows None) limit
  = kept (firstn (Z.to_nat limit) rows).
Proof.
  unfold facts_of, convert_complaints_to_facts, convert_body.
  rewrite convert_loop_reads, Z.sub_0_r. reflexivity.
Qed.

Lemma kept_length (rows : list row) : (length (kept rows) <= length rows)%nat.
Proof. unfold kept. rewrite length_map. apply List.filter_length_le. Qed.

Lemma kept_all (rows : list row) :
  Forall (fun r => qualifies r = true) rows -> kept rows = map fact_of rows.
Proof.
  unfold kept. induction 1 as [|r rows Hr _ IH]; [reflexivity|].
  cbn [List.filter]. rewrite Hr. cbn [map]. now rewrite IH.
Qed.

Lemma firstn_In_inv {A} (x : A) (n : nat) (l : list A) :
  In x (firstn n l) -> In x l.
Proof.
  revert l. induction n as [|n IH]; intros [|y l] H; simpl in *; try easy.
  destruct H as [H|H]; [now left|right; now apply IH].
Qed.

(** C4 (amended).  The limit bounds the rows the converter examines, not the
    records it emits: the facts returned are those of the qualifying rows
    among the first [limit] rows, in input order.  So at most [limit]
    records are emitted, and exactly [limit] when the first [limit] rows
    all qualify. *)
Theorem convert_examines_first_rows (csv_path : string) (rows : list row)
    (limit : Z) :
  let facts := facts_of csv_path (Reader rows None) limit in
  facts = kept (firstn (Z.to_nat limit) rows)
  /\ Z.of_nat (length facts) <= Z.max 0 limit
  /\ (0 <= limit <= Z.of_nat (length rows) ->
      Forall (fun r => qualifies r = true) (firstn (Z.to_nat limit) rows) ->
      Z.of_nat (length facts) = limit
      /\ facts = map fact_of (firstn (Z.to_nat limit) rows)).
Proof.
  cbn zeta. rewrite facts_of_reads. split; [reflexivity|]. split.
  - pose proof (kept_length (firstn (Z.to_nat limit) rows)) as H.
    pose proof (firstn_le_length (Z.to_nat limit) rows) as H'.
    rewrite length_firstn in H. lia.
  - intros Hl Hq. rewrite (kept_all _ Hq), length_map, length_firstn.
    split; [lia|reflexivity].
Qed.

Lemma convert_examines_first_rows_witness :
  Z.of_nat (length (facts_of "data/complaints.csv"
                      (Reader (repeat good_row 1500) None) 1000)) = 1000
  /\ facts_of "data/complaints.csv" (Reader (repeat good_row 1500) None) 1000
     = map fact_of (firstn 1000 (repeat good_row 1500)).
Proof.
  destruct (convert_examines_first_rows "data/complaints.csv"
              (repeat good_row 1500) 1000) as (_ & _ & H).
  apply H.
  - rewrite repeat_length. lia.
  - apply List.Forall_forall. intros r Hr. apply firstn_In_inv in Hr.
    apply repeat_spec in Hr. subst r. vm_compute. reflexivity.
Defined.

(** C4 as stated fails: with a limit of two, a row that is filtered out
    uses up one of the two places, and one record is emitted although two
    rows of the input qualify. *)
Lemma convert_limit_counterexample :
  length (List.filter qualifies [short_row; good_row; good_row]) = 2%nat
  /\ facts_of "data/complaints.csv"
       (Reader [short_row; good_row; good_row] None) 2
     = [fact_of good_row].
Proof. split; vm_compute; reflexivity. Qed.

Lemma skipped_iff (narrative : string) :
  skipped narrative = true <-> narrative = "" \/ Py.len narrative < 50.
Proof.
  unfold skipped. rewrite orb_true_iff, Z.ltb_lt.
  destruct narrative; simpl; intuition (discriminate || (unfold Py.len; simpl; lia)).
Qed.

Lemma narrative_of_cell (r : row) :
  narrative_of r
  = match narrative_cell r with
    | Some s => Py.strip s
    | None => ""
    end.
Proof.
  unfold narrative_of, narrative_cell, or_else.
  destruct (r !! "Consumer complaint narrative") as [[|c s]|];
    destruct (r !! "consumer_complaint_narrative") as [[|c' s']|];
    reflexivity.
Qed.

Lemma skipped_absent_or_short (r : row) :
  skipped (narrative_of r) = true <-> absent_or_short r.
Proof.
  rewrite skipped_iff, narrative_of_cell. unfold absent_or_short.
  destruct (narrative_cell r) as [s|].
  - split.
    + intros H. right. exists s. split; [reflexivity|].
      destruct H as [H|H]; [rewrite H; reflexivity|exact H].
    + intros [H|(s' & [= <-] & H)]; [discriminate|now right].
  - split; [now left|now left].
Qed.

(** C6 (amended).  A row the converter examines, its index being below the
    limit, is dropped exactly when its narrative cell is absent or, once
    its whitespace is trimmed, shorter than 50 characters: the facts are
    unchanged by a dropped row and grow by the row's fact, whose incident is
    the trimmed cell, otherwise.  A cell that trims to 49 characters is
    dropped and one that trims to 50 is kept, however they are padded. *)
Theorem convert_filters_short_narratives (csv_path : string)
    (before : list row) (r : row) (limit : Z) :
  Z.of_nat (length before) < limit ->
  let facts := facts_of csv_path (Reader before None) limit in
  let facts' := facts_of csv_path (Reader (before ++ [r]) None) limit in
  (facts' = facts <-> absent_or_short r)
  /\ (~ absent_or_short r -> facts' = facts ++ [fact_of r])
  /\ forall s,
       narrative_cell r = Some s ->
       incident (fact_of r) = Py.strip s
       /\ (Py.len (Py.strip s) = 49 -> facts' = facts)
       /\ (Py.len (Py.strip s) = 50 -> facts' = facts ++ [fact_of r]).
Proof.
  intros Hlt. cbn zeta. rewrite !facts_of_reads.
  rewrite firstn_app, (firstn_all2 before) by lia.
  replace (Z.to_nat limit - length before)%nat
    with (S (Z.to_nat limit - length before - 1)) by lia.
  cbn [firstn]. rewrite firstn_nil. unfold kept.
  rewrite List.filter_app, map_app. cbn [List.filter].
  change (qualifies r) with (negb (skipped (narrative_of r))).
  pose proof (skipped_absent_or_short r) as Hs.
  assert (Hcell : forall s, narrative_cell r = Some s ->
            incident (fact_of r) = Py.strip s
            /\ (Py.len (Py.strip s) < 50 -> absent_or_short r)
            /\ (absent_or_short r -> Py.len (Py.strip s) < 50)).
  { intros s Hc. cbn [incident fact_of]. rewrite narrative_of_cell, Hc.
    split; [reflexivity|]. split.
    - intros H. right. now exists s.
    - intros [H|(s' & H & Hlen)]; [congruence|].
      rewrite Hc in H. now injection H as <-. }
  destruct (skipped (narrative_of r)) eqn:E; cbn [negb map].
  - rewrite app_nil_r. assert (H := proj1 Hs eq_refl).
    split; [tauto|]. split; [tauto|].
    intros s Hc. destruct (Hcell s Hc) as (Hi & _ & Hshort).
    split; [exact Hi|]. specialize (Hshort H).
    split; intros; (reflexivity || (exfalso; lia)).
  - assert (H : ~ absent_or_short r)
      by (intros H; apply Hs in H; discriminate).
    split; [|split; [reflexivity|]].
    + split; [|tauto]. intros Heq. apply (f_equal (@length fact)) in Heq.
      rewrite length_app in Heq. simpl in Heq. lia.
    + intros s Hc. destruct (Hcell s Hc) as (Hi & Hshort & _).
      split; [exact Hi|]. split; [|reflexivity].
      intros H49. exfalso. apply H, Hshort. lia.
Qed.

Lemma convert_filters_short_narratives_witness :
  (Py.len (Py.strip ("   " ++ narrative_49 ++ "    ")) = 49
   /\ facts_of "data/complaints.csv"
        (Reader ([good_row] ++ [padded_49_row]) None) 1000
      = facts_of "data/complaints.csv" (Reader [good_row] None) 1000)
  /\ (Py.len (Py.strip ("  " ++ narrative_50 ++ "  ")) = 50
      /\ facts_of "data/complaints.csv"
           (Reader ([good_row] ++ [padded_50_row]) None) 1000
         = facts_of "data/complaints.csv" (Reader [good_row] None) 1000
           ++ [fact_of padded_50_row]
      /\ incident (fact_of padded_50_row) = narrative_50).
Proof.
  assert (H : Z.of_nat (length [good_row]) < 1000) by (simpl; lia).
  split.
  - split; [reflexivity|].
    destruct (convert_filters_short_narratives
                "data/complaints.csv" [good_row] padded_49_row 1000 H)
      as (_ & _ & Hc).
    destruct (Hc ("   " ++ narrative_49 ++ "    ")%string eq_refl)
      as (_ & H49 & _).
    apply H49. reflexivity.
  - split; [reflexivity|].
    destruct (convert_filters_short_narratives
                "data/complaints.csv" [good_row] padded_50_row 1000 H)
      as (_ & _ & Hc).
    destruct (Hc ("  " ++ narrative_50 ++ "  ")%string eq_refl)
      as (Hi & _ & H50).
    split; [apply H50; reflexivity|exact Hi].
Defined.

(** C6 as stated fails for the rows beyond the limit: with a limit of one,
    a second row whose narrative has 54 characters after trimming is
    dropped all the same. *)
Lemma convert_drops_beyond_limit_counterexample :
  narrative_cell good_row = Some long_narrative
  /\ Py.len (Py.strip long_narrative) = 54
  /\ facts_of "data/complaints.csv" (Reader ([good_row] ++ [good_row]) None) 1
     = facts_of "data/complaints.csv" (Reader [good_row] None) 1.
Proof. repeat split; vm_compute; reflexivity. Qed.

(** C9.  When opening the file fails, or reading it fails at a row the loop
    reaches, the converter raises nothing: it returns no fact and prints a
    line that names the path (file not found) or the error (any other). *)
Theorem convert_reports_read_errors (csv_path : string) (src : csv_source)
    (limit : Z) (e : exn) :
  src = OpenFails e
  \/ (exists rows, src = Reader rows (Some e)
                   /\ Z.of_nat (length rows) <= Z.max 0 limit) ->
  facts_of csv_path src limit = []
  /\ match e with
     | FileNotFoundError =>
         hd "" (printed csv_path src limit)
         = ("Error: CSV file not found at " ++ csv_path)%string
     | _ =>
         printed csv_path src limit
         = [("Error reading CSV: " ++ exn_text e)%string]
     end.
Proof.
  intros H.
  assert (Hb : convert_body src limit = Raise e).
  { destruct H as [->|(rows & -> & Hlen)]; [reflexivity|].
    apply convert_loop_fails. now rewrite Z.sub_0_r. }
  unfold facts_of, printed, convert_complaints_to_facts. rewrite Hb.
  destruct e; split; reflexivity.
Qed.

Lemma convert_reports_read_errors_witness :
  facts_of "data/complaints.csv" (OpenFails FileNotFoundError) 1000 = []
  /\ hd "" (printed "data/complaints.csv" (OpenFails FileNotFoundError) 1000)
     = "Error: CSV file not found at data/complaints.csv"
  /\ facts_of "data/complaints.csv"
       (Reader [good_row] (Some (OtherError "line contains NUL"))) 1000 = []
  /\ printed "data/complaints.csv"
       (Reader [good_row] (Some (OtherError "line contains NUL"))) 1000
     = ["Error reading CSV: line contains NUL"].
Proof.
  destruct (convert_reports_read_errors "data/complaints.csv"
              (OpenFails FileNotFoundError) 1000 FileNotFoundError)
    as [H1 H2]; [now left|].
  destruct (convert_reports_read_errors "data/complaints.csv"
              (Reader [good_row] (Some (OtherError "line contains NUL")))
              1000 (OtherError "line contains NUL"))
    as [H3 H4]; [right; exists [good_row]; split; [reflexivity|simpl; lia]|].
  repeat split; assumption.
Defined.

Lemma lstrip_blank (s : string) : blank_only s = true -> Py.lstrip s = "".
Proof.
  induction s as [|c s IH]; simpl; [reflexivity|].
  intros H. apply andb_true_iff in H as [-> H]. now apply IH.
Qed.

Lemma strip_blank (s : string) : blank_only s = true -> Py.strip s = "".
Proof. intros H. unfold Py.strip. now rewrite lstrip_blank. Qed.

Lemma or_else_some (s d : string) : s <> "" -> or_else (Some s) d = s.
Proof. destruct s; [congruence|reflexivity]. Qed.

Lemma or_else_missing (x : option string) (d : string) :
  missing x -> or_else x d = d.
Proof. intros [->| ->]; reflexivity. Qed.

Lemma facts_of_snoc (csv_path : string) (before : list row) (r : row)
    (limit : Z) :
  Z.of_nat (length before) < limit ->
  facts_of csv_path (Reader (before ++ [r]) None) limit
  = facts_of csv_path (Reader before None) limit
    ++ (if qualifies r then [fact_of r] else []).
Proof.
  intros Hlt. rewrite !facts_of_reads.
  rewrite firstn_app, (firstn_all2 before) by lia.
  replace (Z.to_nat limit - length before)%nat
    with (S (Z.to_nat limit - length before - 1)) by lia.
  cbn [firstn]. rewrite firstn_nil. unfold kept.
  rewrite List.filter_app, map_app. cbn [List.filter].
  now destruct (qualifies r).
Qed.

(** C10.  The company falls back on "Unknown Company" before it is trimmed:
    a company field that holds only blanks gives the empty defendant, and
    the fallback is the defendant only when both column variants are absent
    or empty.  The defendant is that of the fact the row emits. *)
Theorem company_default_before_trim (r : row) :
  (forall csv_path before limit,
     Z.of_nat (length before) < limit -> qualifies r = true ->
     facts_of csv_path (Reader (before ++ [r]) None) limit
     = facts_of csv_path (Reader before None) limit ++ [fact_of r])
  /\ (forall s, r !! "Company" = Some s -> s <> "" ->
        defendant (fact_of r) = Py.strip s
        /\ (blank_only s = true -> defendant (fact_of r) = ""))
  /\ (forall s, missing (r !! "Company") -> r !! "company" = Some s ->
        s <> "" ->
        defendant (fact_of r) = Py.strip s
        /\ (blank_only s = true -> defendant (fact_of r) = ""))
  /\ (missing (r !! "Company") -> missing (r !! "company") ->
        defendant (fact_of r) = "Unknown Company").
Proof.
  split; [|split; [|split]].
  - intros csv_path before limit Hlt Hq.
    rewrite (facts_of_snoc _ _ _ _ Hlt), Hq. reflexivity.
  - intros s Hs Hne. cbn [defendant fact_of]. unfold company_of.
    rewrite Hs, (or_else_some _ _ Hne).
    split; [reflexivity|apply strip_blank].
  - intros s Hm Hs Hne. cbn [defendant fact_of]. unfold company_of.
    rewrite (or_else_missing _ _ Hm), Hs, (or_else_some _ _ Hne).
    split; [reflexivity|apply strip_blank].
  - intros Hm Hm'. cbn [defendant fact_of]. unfold company_of.
    rewrite (or_else_missing _ _ Hm), (or_else_missing _ _ Hm').
    reflexivity.
Qed.

Lemma company_default_before_trim_witness :
  defendant (fact_of blank_company_row) = ""
  /\ facts_of "data/complaints.csv" (Reader ([] ++ [blank_company_row]) None) 10
     = facts_of "data/complaints.csv" (Reader [] None) 10
       ++ [fact_of blank_company_row].
Proof.
  destruct (company_default_before_trim blank_company_row) as (H1 & H2 & _).
  split.
  - apply (H2 "   "); [reflexivity|discriminate|reflexivity].
  - apply H1; [simpl; lia|reflexivity].
Defined.

(** ** The loader *)

Lemma insert_by_time_perm (m : message) (l : list message) :
  Permutation (m :: l) (insert_by_time m l).
Proof.
  induction l as [|x l IH]; simpl; [reflexivity|].
  destruct (timestamp m <=? timestamp x)%Z; [reflexivity|].
  rewrite perm_swap. now apply perm_skip.
Qed.

Lemma sort_by_time_perm (l : list message) : Permutation l (sort_by_time l).
Proof.
  induction l as [|m l IH]; simpl; [reflexivity|].
  rewrite <- insert_by_time_perm. now apply perm_skip.
Qed.

Lemma insert_by_time_sorted (m : message) (l : list message) :
  Sorted time_le l -> Sorted time_le (insert_by_time m l).
Proof.
  induction 1 as [|x l Hl IH Hx]; simpl; [repeat constructor|].
  destruct (Z.leb_spec (timestamp m) (timestamp x)) as [Hle|Hlt].
  - repeat constructor; assumption.
  - constructor; [exact IH|].
    destruct l as [|y l]; simpl.
    + constructor. unfold time_le. lia.
    + destruct (timestamp m <=? timestamp y)%Z; constructor.
      * unfold time_le. lia.
      * now inversion Hx.
Qed.

Lemma sort_by_time_sorted (l : list message) : Sorted time_le (sort_by_time l).
Proof.
  induction l as [|m l IH]; simpl; [constructor|].
  now apply insert_by_time_sorted.
Qed.

Lemma insert_by_time_stamped (t : Z) (m : message) (l : list message) :
  stamped t (insert_by_time m l) = stamped t (m :: l).
Proof.
  unfold stamped. induction l as [|x l IH]; [reflexivity|].
  cbn [insert_by_time].
  destruct (Z.leb_spec (timestamp m) (timestamp x)) as [Hle|Hlt];
    [reflexivity|].
  cbn [List.filter] in *. rewrite IH.
  destruct (Z.eqb_spec (timestamp x) t) as [Ex|Ex];
    destruct (Z.eqb_spec (timestamp m) t) as [Em|Em];
    try reflexivity; lia.
Qed.

Lemma sort_by_time_stamped (t : Z) (l : list message) :
  stamped t (sort_by_time l) = stamped t l.
Proof.
  induction l as [|m l IH]; [reflexivity|].
  cbn [sort_by_time]. rewrite insert_by_time_stamped.
  unfold stamped in *. cbn [List.filter]. now rewrite IH.
Qed.

(** C7.  What the loader returns is the collected messages in ascending
    order of timestamp, messages with equal timestamps keeping the order in
    which they were collected. *)
Theorem read_chat_sorted_stable (fromisoformat : string -> option Z)
    (src : chat_source) (msgs : list message) :
  read_chat fromisoformat src = Ok msgs ->
  exists collected,
    collect fromisoformat src = Ok collected
    /\ Permutation collected msgs
    /\ StronglySorted time_le msgs
    /\ forall t, stamped t msgs = stamped t collected.
Proof.
  unfold read_chat. intros H. apply bind_ok in H as (collected & Hc & H).
  injection H as <-. exists collected. split; [exact Hc|].
  split; [apply sort_by_time_perm|]. split.
  - apply Sorted_StronglySorted; [|apply sort_by_time_sorted].
    intros a b c. unfold time_le. lia.
  - intros t. apply sort_by_time_stamped.
Qed.

Lemma read_chat_sorted_stable_witness :
  exists m1 m2 m3,
    read_chat no_isoformat (JsonItems unordered_items) = Ok [m1; m2; m3]
    /\ StronglySorted time_le [m1; m2; m3]
    /\ content m1 = "earlier, first" /\ content m2 = "earlier, second"
    /\ content m3 = "later"
    /\ timestamp m1 = timestamp m2.
Proof.
  assert (E : exists m1 m2 m3,
             read_chat no_isoformat (JsonItems unordered_items)
             = Ok [m1; m2; m3]
             /\ content m1 = "earlier, first"
             /\ content m2 = "earlier, second"
             /\ content m3 = "later" /\ timestamp m1 = timestamp m2).
  { vm_compute. do 3 eexists. repeat split; reflexivity. }
  destruct E as (m1 & m2 & m3 & E & H).
  exists m1, m2, m3. split; [exact E|]. split; [|exact H].
  destruct (read_chat_sorted_stable _ _ _ E) as (c & _ & _ & Hs & _).
  exact Hs.
Defined.

Lemma lower_char_idem (c : ascii) :
  Py.lower_char (Py.lower_char c) = Py.lower_char c.
Proof. destruct c as [[] [] [] [] [] [] [] []]; reflexivity. Qed.

Lemma lower_idem (s : string) : Py.lower (Py.lower s) = Py.lower s.
Proof.
  induction s as [|c s IH]; simpl; [reflexivity|].
  now rewrite lower_char_idem, IH.
Qed.

Lemma truthy_nonempty (s : string) : Py.truthy s = true -> s <> "".
Proof. destruct s; [discriminate|congruence]. Qed.

Section LoaderFacts.

Variable fromisoformat : string -> option Z.

Lemma json_message_role (item : json_object) (m : message) :
  json_message fromisoformat item = Ok (Some m) ->
  role m <> "" /\ Py.lower (role m) = role m.
Proof.
  unfold json_message. intros H. apply bind_ok in H as (r & Hr & H).
  destruct (val_truthy _); [|discriminate].
  destruct (Py.truthy r) eqn:Et; [|discriminate]. cbn [negb orb] in H.
  destruct (parse_dt_val _ _); [|discriminate]. injection H as <-.
  cbn [role]. split; [now apply truthy_nonempty|].
  unfold val_lower in Hr.
  destruct (por _ _) as [[s|]|]; try discriminate.
  injection Hr as <-. apply lower_idem.
Qed.

Lemma csv_message_role (r : row) (m : message) :
  csv_message fromisoformat r = Some m ->
  role m <> "" /\ Py.lower (role m) = role m.
Proof.
  unfold csv_message. intros H.
  destruct (Py.truthy (Py.strip (or_else (r !! "timestamp") _)));
    [|discriminate].
  destruct (Py.truthy (Py.lower _)) eqn:Et; [|discriminate].
  cbn [negb orb] in H. destruct (parse_dt _ _); [|discriminate].
  injection H as <-. cbn [role].
  split; [now apply truthy_nonempty|apply lower_idem].
Qed.

Lemma collect_json_In (items : list json_object) :
  forall (msgs : list message) (m : message),
    collect_json fromisoformat items = Ok msgs -> In m msgs ->
    exists item, In item items
                 /\ json_message fromisoformat item = Ok (Some m).
Proof.
  induction items as [|item items IH]; intros msgs m H Hin; simpl in H.
  - injection H as <-. destruct Hin.
  - apply bind_ok in H as (o & Ho & H).
    apply bind_ok in H as (rest & Hrest & H). injection H as <-.
    destruct o as [msg|].
    + destruct Hin as [<-|Hin]; [exists item; split; [now left|exact Ho]|].
      destruct (IH _ _ Hrest Hin) as (it & Hit & Hm).
      exists it. split; [now right|exact Hm].
    + destruct (IH _ _ Hrest Hin) as (it & Hit & Hm).
      exists it. split; [now right|exact Hm].
Qed.

Lemma collect_csv_In (rows : list row) (m : message) :
  In m (collect_csv fromisoformat rows) ->
  exists r, In r rows /\ csv_message fromisoformat r = Some m.
Proof.
  induction rows as [|r rows IH]; simpl; [easy|].
  destruct (csv_message fromisoformat r) as [msg|] eqn:E.
  - intros [<-|Hin]; [exists r; split; [now left|exact E]|].
    destruct (IH Hin) as (r' & Hr' & Hm). exists r'. split; [now right|exact Hm].
  - intros Hin. destruct (IH Hin) as (r' & Hr' & Hm).
    exists r'. split; [now right|exact Hm].
Qed.

Lemma collect_json_app (items1 items2 : list json_object) :
  collect_json fromisoformat (items1 ++ items2)
  = (a <- collect_json fromisoformat items1 ;;
     b <- collect_json fromisoformat items2 ;;
     Ok (a ++ b)).
Proof.
  induction items1 as [|item items1 IH]; simpl.
  - destruct (collect_json fromisoformat items2); reflexivity.
  - destruct (json_message fromisoformat item) as [o|e]; [|reflexivity].
    cbn [bind]. rewrite IH.
    destruct (collect_json fromisoformat items1) as [a|e]; [|reflexivity].
    cbn [bind].
    destruct (collect_json fromisoformat items2) as [b|e]; [|reflexivity].
    cbn [bind]. now destruct o.
Qed.

Lemma collect_csv_app (rows1 rows2 : list row) :
  collect_csv fromisoformat (rows1 ++ rows2)
  = collect_csv fromisoformat rows1 ++ collect_csv fromisoformat rows2.
Proof.
  induction rows1 as [|r rows1 IH]; simpl; [reflexivity|].
  destruct (csv_message fromisoformat r); simpl; now rewrite IH.
Qed.

(** An object the loop passes over. *)
Lemma json_message_discards (item : json_object) :
  role_is_text item ->
  val_truthy (json_ts item) = false
  \/ json_role item = Some (PyStr "")
  \/ (exists e, parse_dt_val fromisoformat (json_ts item) = Raise e) ->
  json_message fromisoformat item = Ok None.
Proof.
  intros [s Hs] H. unfold json_message.
  fold (json_ts item). fold (json_role item). rewrite Hs. cbn [val_lower bind].
  destruct H as [H|[H|[e H]]].
  - rewrite H. reflexivity.
  - rewrite Hs in H. injection H as ->. cbn.
    now rewrite orb_true_r.
  - rewrite H. now destruct (_ || _).
Qed.

(** A row the loop passes over. *)
Lemma csv_message_discards (r : row) :
  csv_ts r = ""
  \/ csv_role r = ""
  \/ (exists e, parse_dt fromisoformat (csv_ts r) = Raise e) ->
  csv_message fromisoformat r = None.
Proof.
  intros H. unfold csv_message. fold (csv_ts r). fold (csv_role r).
  destruct H as [H|[H|[e H]]].
  - rewrite H. reflexivity.
  - rewrite H. cbn. now rewrite orb_true_r.
  - rewrite H. now destruct (_ || _).
Qed.

End LoaderFacts.

(** C5 (amended).  Every message the loader returns has a role that is not
    empty and is stored lower-cased, whatever the role is.  An object or a
    row with no timestamp, with an empty role, or with a timestamp that no
    accepted format parses is passed over, the load going on as if it were
    not there, provided (for a JSON object) that its role field is a text
    or is absent or false. *)
Theorem read_chat_roles_and_discards (fromisoformat : string -> option Z) :
  (forall src msgs m,
     read_chat fromisoformat src = Ok msgs -> In m msgs ->
     role m <> "" /\ Py.lower (role m) = role m)
  /\ (forall items1 item items2,
        role_is_text item ->
        val_truthy (json_ts item) = false
        \/ json_role item = Some (PyStr "")
        \/ (exists e, parse_dt_val fromisoformat (json_ts item) = Raise e) ->
        read_chat fromisoformat (JsonItems (items1 ++ item :: items2))
        = read_chat fromisoformat (JsonItems (items1 ++ items2)))
  /\ (forall rows1 r rows2,
        csv_ts r = ""
        \/ csv_role r = ""
        \/ (exists e, parse_dt fromisoformat (csv_ts r) = Raise e) ->
        read_chat fromisoformat (CsvRows (rows1 ++ r :: rows2))
        = read_chat fromisoformat (CsvRows (rows1 ++ rows2))).
Proof.
  split; [|split].
  - intros src msgs m H Hin. unfold read_chat in H.
    apply bind_ok in H as (collected & Hc & H). injection H as <-.
    apply (Permutation_in _ (Permutation_sym (sort_by_time_perm collected)))
      in Hin.
    destruct src as [items|rows]; simpl in Hc.
    + destruct (collect_json_In _ _ _ _ Hc Hin) as (item & _ & Hm).
      exact (json_message_role _ _ _ Hm).
    + injection Hc as <-.
      destruct (collect_csv_In _ _ _ Hin) as (r & _ & Hm).
      exact (csv_message_role _ _ _ Hm).
  - intros items1 item items2 Ht Hd. unfold read_chat, collect.
    rewrite !collect_json_app. cbn [collect_json].
    rewrite (json_message_discards _ _ Ht Hd). cbn [bind].
    destruct (collect_json fromisoformat items1) as [a|e]; [|reflexivity].
    cbn [bind].
    now destruct (collect_json fromisoformat items2).
  - intros rows1 r rows2 Hd. unfold read_chat, collect.
    rewrite !collect_csv_app. cbn [collect_csv].
    now rewrite (csv_message_discards _ _ Hd).
Qed.

Lemma read_chat_roles_and_discards_witness :
  read_chat no_isoformat
    (JsonItems ([system_item]
                ++ json_text_message "yesterday" "user" "when?"
                :: unordered_items))
  = read_chat no_isoformat (JsonItems ([system_item] ++ unordered_items)).
Proof.
  apply (read_chat_roles_and_discards no_isoformat).
  - exists "user". reflexivity.
  - right. right. exists (ValueError "Unrecognized timestamp format: yesterday").
    vm_compute. reflexivity.
Defined.

(** C5 as stated fails twice.  A message whose role is neither "user" nor
    "assistant" is returned like any other; and an object that lacks a
    timestamp but whose role is a number is not passed over: the lookup of
    its role raises, and the whole load fails. *)
Lemma read_chat_roles_counterexample :
  (exists m,
     read_chat no_isoformat (JsonItems [system_item]) = Ok [m]
     /\ role m = "system" /\ role m <> "user" /\ role m <> "assistant")
  /\ val_truthy (json_ts numeric_role_item) = false
  /\ read_chat no_isoformat (JsonItems [system_item; numeric_role_item])
     = Raise AttributeError.
Proof.
  split; [|split; vm_compute; reflexivity].
  vm_compute. eexists. split; [reflexivity|].
  split; [reflexivity|split; discriminate].
Qed.

(** ** The aggregator *)

Lemma percent_returns (v grand : Q) : percent v grand = Ok (share_pct v grand).
Proof.
  unfold percent, share_pct, Fl.truthy, Fl.truediv.
  now destruct (Qeq_bool grand 0).
Qed.

Lemma share_entry_returns (v : tally) (gm : Q) (gt : Z) :
  share_entry v gm gt
  = Ok {| share_mins := Fl.round (mins v) 2;
          mins_share := Fl.round (share_pct (mins v) gm) 1;
          share_tokens := tokens v;
          tokens_share :=
            Fl.round (share_pct (inject_Z (tokens v)) (inject_Z gt)) 1 |}.
Proof. unfold share_entry. now rewrite !percent_returns. Qed.

Lemma accumulate_tokens (turns : list turn) :
  forall (totals : category -> tally) (c : category),
    tokens (fold_left add_turn turns totals c)
    = tokens (totals c) + tokens_sum (of_category c turns).
Proof.
  induction turns as [|t turns IH]; intros totals c;
    cbn [fold_left of_category List.filter tokens_sum fold_right]; [lia|].
  rewrite IH. unfold add_turn, of_category.
  destruct (category_eqb c (turn_category t));
    unfold tokens_sum; cbn [tokens fold_right]; lia.
Qed.

Lemma tokens_sum_by_category (turns : list turn) :
  tokens_sum turns
  = tokens_sum (of_category DEBUG_LOG turns)
    + tokens_sum (of_category FEATURE_DEV turns)
    + tokens_sum (of_category TEST_DOCS_CI turns)
    + tokens_sum (of_category OTHER turns).
Proof.
  induction turns as [|t turns IH]; [reflexivity|].
  unfold of_category, tokens_sum in *. cbn [List.filter fold_right].
  rewrite IH.
  destruct (turn_category t); cbn [category_eqb fold_right]; lia.
Qed.

Lemma grand_tokens_of_sum (totals : category -> tally) :
  grand_tokens_of totals
  = tokens (totals DEBUG_LOG) + tokens (totals FEATURE_DEV)
    + tokens (totals TEST_DOCS_CI) + tokens (totals OTHER).
Proof. unfold grand_tokens_of. cbn [fold_left CATEGORIES]. lia. Qed.

Lemma grand_mins_of_sum (totals : category -> tally) :
  Qeq (grand_mins_of totals)
      (Qplus (Qplus (Qplus (mins (totals DEBUG_LOG)) (mins (totals FEATURE_DEV)))
                (mins (totals TEST_DOCS_CI))) (mins (totals OTHER))).
Proof.
  unfold grand_mins_of. cbn [fold_left CATEGORIES].
  now rewrite Qplus_0_l.
Qed.

Lemma round_to_decimals (x : Q) (d : nat) : to_decimals d (Fl.round x d) x.
Proof.
  unfold to_decimals, Fl.round. cbv zeta.
  set (scale := Z.pow 10 (Z.of_nat d)).
  assert (Hs : 0 < scale) by (apply Z.pow_pos_nonneg; lia).
  assert (Hsq : Qlt 0 (inject_Z scale))
    by (change 0%Q with (inject_Z 0); rewrite <- Zlt_Qlt; exact Hs).
  assert (Hne : ~ Qeq (inject_Z scale) 0)
    by (intros E; rewrite E in Hsq; discriminate Hsq).
  set (y := Qmult x (inject_Z scale)). set (f := Qfloor y).
  set (u := Qinv (inject_Z scale)).
  assert (Hu : Qle 0 u) by (apply Qlt_le_weak, Qinv_lt_0_compat, Hsq).
  assert (Hx : Qeq x (Qmult y u)).
  { unfold y, u. rewrite <- Qmult_assoc, Qmult_inv_r by exact Hne.
    now rewrite Qmult_1_r. }
  assert (Hlo : Qle (inject_Z f) y) by apply Qfloor_le.
  assert (Hhi : Qlt y (inject_Z (f + 1))) by apply Qlt_floor.
  rewrite inject_Z_plus in Hhi. change (inject_Z 1) with 1%Q in Hhi.
  assert (Hn : exists n : Z,
             match Qcompare (Qminus y (inject_Z f)) (1 # 2) with
             | Lt => f
             | Gt => f + 1
             | Eq => if Z.even f then f else f + 1
             end = n
             /\ Qle (Qminus y (1 # 2)) (inject_Z n)
             /\ Qle (inject_Z n) (Qplus y (1 # 2))).
  { eexists. split; [reflexivity|].
    destruct (Qcompare (Qminus y (inject_Z f)) (1 # 2)) eqn:E.
    - apply Qeq_alt in E. destruct (Z.even f);
        rewrite ?inject_Z_plus; change (inject_Z 1) with 1%Q; split; lra.
    - apply Qlt_alt in E. split; lra.
    - apply Qgt_alt in E. rewrite inject_Z_plus.
      change (inject_Z 1) with 1%Q. split; lra. }
  destruct Hn as (n & -> & Hn1 & Hn2).
  rewrite Qred_correct. unfold Qdiv. fold u. split; [|split].
  - exists n. apply Qred_correct.
  - rewrite Hx.
    assert (E : Qeq (Qminus (Qmult y u) (Qmult (1 # 2) u))
                  (Qmult (Qminus y (1 # 2)) u)) by ring.
    rewrite E.
    now apply Qmult_le_compat_r.
  - rewrite Hx.
    assert (E : Qeq (Qplus (Qmult y u) (Qmult (1 # 2) u))
                  (Qmult (Qplus y (1 # 2)) u)) by ring.
    rewrite E.
    now apply Qmult_le_compat_r.
Qed.

Lemma to_decimals_comp (d : nat) (x y y' : Q) :
  Qeq y y' -> to_decimals d x y -> to_decimals d x y'.
Proof.
  unfold to_decimals. cbv zeta. intros E (Hk & H1 & H2).
  split; [exact Hk|]. now rewrite <- E.
Qed.

Lemma share_pct_comp (v v' g g' : Q) :
  Qeq v v' -> Qeq g g' -> Qeq (share_pct v g) (share_pct v' g').
Proof.
  intros Ev Eg. unfold share_pct.
  destruct (Qeq_bool g 0) eqn:E1, (Qeq_bool g' 0) eqn:E2.
  - reflexivity.
  - apply Qeq_bool_iff in E1. apply Qeq_bool_neq in E2.
    exfalso. apply E2. now rewrite <- Eg.
  - apply Qeq_bool_iff in E2. apply Qeq_bool_neq in E1.
    exfalso. apply E1. now rewrite Eg.
  - now rewrite Ev, Eg.
Qed.

Lemma accumulate_mins (turns : list turn) :
  forall (totals : category -> tally) (c : category),
    Qeq (mins (fold_left add_turn turns totals c))
        (Qplus (mins (totals c)) (mins_sum (of_category c turns))).
Proof.
  induction turns as [|t turns IH]; intros totals c;
    cbn [fold_left of_category List.filter mins_sum fold_right].
  - now rewrite Qplus_0_r.
  - rewrite IH. unfold add_turn, of_category.
    destruct (category_eqb c (turn_category t));
      unfold mins_sum; cbn [mins fold_right]; ring.
Qed.

Lemma mins_sum_by_category (turns : list turn) :
  Qeq (mins_sum turns)
      (Qplus (Qplus (Qplus (mins_sum (of_category DEBUG_LOG turns))
                       (mins_sum (of_category FEATURE_DEV turns)))
                (mins_sum (of_category TEST_DOCS_CI turns)))
         (mins_sum (of_category OTHER turns))).
Proof.
  induction turns as [|t turns IH]; [reflexivity|].
  unfold of_category, mins_sum in *. cbn [List.filter fold_right].
  rewrite IH.
  destruct (turn_category t); cbn [category_eqb fold_right]; ring.
Qed.

(** C8.  The aggregator returns a summary for every sequence of turns, no
    division by zero arising.  A category's totals are the sums of the
    minutes and of the tokens of its turns, the grand totals those of all
    the turns; a category's share of the minutes and of the tokens is its
    total over the grand total times 100, or 0 when the grand total is
    zero.  Tokens are reported as they are, minutes to two decimals and
    shares to one.  For no turn at all every share and both grand totals
    are 0. *)
Theorem summarize_total (turns : list turn) :
  (exists s,
     summarize turns = Ok s
     /\ grand_tokens s = tokens_sum turns
     /\ to_decimals 2 (grand_mins s) (mins_sum turns)
     /\ forall c,
          let entry := summary_totals s c in
          let category_mins := mins_sum (of_category c turns) in
          let category_tokens := tokens_sum (of_category c turns) in
          share_tokens entry = category_tokens
          /\ to_decimals 2 (share_mins entry) category_mins
          /\ to_decimals 1 (mins_share entry)
               (share_pct category_mins (mins_sum turns))
          /\ to_decimals 1 (tokens_share entry)
               (share_pct (inject_Z category_tokens)
                  (inject_Z (tokens_sum turns)))
          /\ (Qeq (mins_sum turns) 0 -> mins_share entry = inject_Z 0)
          /\ (tokens_sum turns = 0 -> tokens_share entry = inject_Z 0))
  /\ (exists s0,
        summarize [] = Ok s0
        /\ grand_mins s0 = inject_Z 0 /\ grand_tokens s0 = 0
        /\ forall c,
             mins_share (summary_totals s0 c) = inject_Z 0
             /\ tokens_share (summary_totals s0 c) = inject_Z 0).
Proof.
  split.
  - unfold summarize. rewrite !share_entry_returns. cbn [bind].
    eexists. split; [reflexivity|].
    cbn [grand_mins grand_tokens summary_totals].
    set (totals := accumulate turns).
    assert (Ht : forall c, tokens (totals c)
                           = tokens_sum (of_category c turns)).
    { intros c. unfold totals, accumulate. rewrite accumulate_tokens.
      reflexivity. }
    assert (Hm : forall c, Qeq (mins (totals c))
                             (mins_sum (of_category c turns))).
    { intros c. unfold totals, accumulate. rewrite accumulate_mins.
      apply Qplus_0_l. }
    assert (Hgt : grand_tokens_of totals = tokens_sum turns).
    { rewrite grand_tokens_of_sum, !Ht. symmetry.
      apply tokens_sum_by_category. }
    assert (Hgm : Qeq (grand_mins_of totals) (mins_sum turns)).
    { rewrite grand_mins_of_sum, !Hm. symmetry.
      apply mins_sum_by_category. }
    split; [exact Hgt|]. split.
    { exact (to_decimals_comp 2 _ _ _ Hgm (round_to_decimals _ 2)). }
    assert (Hall : forall c,
              tokens (totals c) = tokens_sum (of_category c turns)
              /\ to_decimals 2 (Fl.round (mins (totals c)) 2)
                   (mins_sum (of_category c turns))
              /\ to_decimals 1
                   (Fl.round (share_pct (mins (totals c))
                                (grand_mins_of totals)) 1)
                   (share_pct (mins_sum (of_category c turns))
                      (mins_sum turns))
              /\ to_decimals 1
                   (Fl.round (share_pct (inject_Z (tokens (totals c)))
                                (inject_Z (grand_tokens_of totals))) 1)
                   (share_pct (inject_Z (tokens_sum (of_category c turns)))
                      (inject_Z (tokens_sum turns)))
              /\ (Qeq (mins_sum turns) 0 ->
                  Fl.round (share_pct (mins (totals c))
                              (grand_mins_of totals)) 1 = inject_Z 0)
              /\ (tokens_sum turns = 0 ->
                  Fl.round (share_pct (inject_Z (tokens (totals c)))
                              (inject_Z (grand_tokens_of totals))) 1
                  = inject_Z 0)).
    { intros c. split; [apply Ht|]. split.
      { exact (to_decimals_comp 2 _ _ _ (Hm c) (round_to_decimals _ 2)). }
      split.
      { exact (to_decimals_comp 1 _ _ _ (share_pct_comp _ _ _ _ (Hm c) Hgm)
                 (round_to_decimals _ 1)). }
      split.
      { rewrite <- Ht, <- Hgt. apply round_to_decimals. }
      split.
      - intros H0. rewrite <- Hgm in H0. unfold share_pct.
        apply Qeq_bool_iff in H0. now rewrite H0.
      - intros H0. rewrite Hgt, H0. reflexivity. }
    intros c. cbv zeta. destruct c;
      cbn [share_tokens share_mins mins_share tokens_share]; apply Hall.
  - eexists. split; [vm_compute; reflexivity|].
    split; [reflexivity|]. split; [reflexivity|].
    intros c. destruct c; split; reflexivity.
Qed.

(** * Further properties of the two scripts *)

(** ** Text primitives *)

Lemma rstrip_cons (c : ascii) (s : string) :
  Py.rstrip (String c s)
  = match Py.rstrip s with
    | EmptyString => if Py.isspace c then EmptyString else String c EmptyString
    | t => String c t
    end.
Proof. reflexivity. Qed.

Lemma rstrip_idem (s : string) : Py.rstrip (Py.rstrip s) = Py.rstrip s.
Proof.
  induction s as [|c s IH]; [reflexivity|]. rewrite rstrip_cons.
  destruct (Py.rstrip s) as [|d t] eqn:E.
  - destruct (Py.isspace c) eqn:Ec; [reflexivity|].
    rewrite rstrip_cons. cbn [Py.rstrip]. now rewrite Ec.
  - rewrite rstrip_cons, IH. reflexivity.
Qed.

Lemma lstrip_head (s : string) :
  match Py.lstrip s with
  | EmptyString => True
  | String c _ => Py.isspace c = false
  end.
Proof.
  induction s as [|c s IH]; [exact I|]. cbn [Py.lstrip].
  destruct (Py.isspace c) eqn:E; [exact IH|exact E].
Qed.

Lemma rstrip_head (c : ascii) (s : string) :
  Py.isspace c = false -> exists t, Py.rstrip (String c s) = String c t.
Proof.
  intros E. rewrite rstrip_cons. destruct (Py.rstrip s); [rewrite E|]; eauto.
Qed.

Lemma strip_idem (s : string) : Py.strip (Py.strip s) = Py.strip s.
Proof.
  unfold Py.strip. pose proof (lstrip_head s) as H.
  destruct (Py.lstrip s) as [|c t]; [reflexivity|].
  destruct (rstrip_head c t H) as [t' E]. rewrite E.
  cbn [Py.lstrip]. rewrite H, <- E. apply rstrip_idem.
Qed.

Lemma lower_app (s t : string) :
  Py.lower (s ++ t) = (Py.lower s ++ Py.lower t)%string.
Proof.
  induction s as [|c s IH]; [reflexivity|].
  lazy beta iota delta [String.append] in *. cbn [Py.lower]. fold String.append.
  fold String.append in IH. now rewrite IH.
Qed.

(** ** The complaint converter, further *)

Lemma convert_loop_facts (limit : Z) (failure : option exn) (rows : list row) :
  forall (i : Z) (facts out : list fact),
    Forall from_qualifying_row facts ->
    convert_loop limit i rows failure facts = Ok out ->
    Forall from_qualifying_row out.
Proof.
  induction rows as [|r rows IH]; intros i facts out Hf H; simpl in H.
  - destruct failure; [discriminate|]. now injection H as <-.
  - destruct (limit <=? i)%Z; [now injection H as <-|].
    destruct (skipped (narrative_of r)) eqn:E; [exact (IH _ _ _ Hf H)|].
    apply (IH _ _ _) in H; [exact H|].
    apply List.Forall_app. split; [exact Hf|]. repeat constructor.
    exists r. split; [reflexivity|]. unfold qualifies. now rewrite E.
Qed.

Lemma facts_of_from_rows (csv_path : string) (src : csv_source) (limit : Z) :
  Forall from_qualifying_row (facts_of csv_path src limit).
Proof.
  unfold facts_of, convert_complaints_to_facts.
  destruct (convert_body src limit) as [facts|e] eqn:E.
  - cbn [fst]. destruct src as [e|rows failure]; [discriminate|].
    exact (convert_loop_facts _ _ _ _ _ _ (List.Forall_nil _) E).
  - destruct e; constructor.
Qed.

(** Every fact returned, whatever the file and the limit, names the consumer
    as plaintiff, claims no amount, and carries a narrative of at least 50
    characters; none of its texts begins or ends with a blank. *)
Theorem facts_are_normalised (csv_path : string) (src : csv_source)
    (limit : Z) (f : fact) :
  In f (facts_of csv_path src limit) ->
  plaintiff f = "Consumer"
  /\ amount_claimed f = None
  /\ 50 <= Py.len (incident f)
  /\ Py.strip (incident f) = incident f
  /\ Py.strip (defendant f) = defendant f
  /\ Py.strip (venue f) = venue f
  /\ Py.strip (fact_category f) = fact_category f
  /\ Py.strip (incident_date f) = incident_date f.
Proof.
  intros Hin.
  pose proof (facts_of_from_rows csv_path src limit) as H.
  rewrite List.Forall_forall in H. destruct (H f Hin) as (r & -> & Hq).
  cbn [plaintiff amount_claimed incident defendant venue fact_category
         incident_date fact_of].
  split; [reflexivity|]. split; [reflexivity|]. split.
  - unfold qualifies, skipped in Hq. apply negb_true_iff in Hq.
    apply orb_false_iff in Hq as [_ Hq]. apply Z.ltb_ge in Hq. exact Hq.
  - unfold narrative_of, company_of, state_of, product_of, date_received_of.
    repeat split; apply strip_idem.
Qed.

Lemma facts_are_normalised_witness :
  In (fact_of good_row)
    (facts_of "data/complaints.csv" (Reader [short_row; good_row] None) 1000)
  /\ plaintiff (fact_of good_row) = "Consumer"
  /\ 50 <= Py.len (incident (fact_of good_row))
  /\ Py.strip (defendant (fact_of good_row)) = defendant (fact_of good_row).
Proof.
  assert (Hin : In (fact_of good_row)
                  (facts_of "data/complaints.csv"
                     (Reader [short_row; good_row] None) 1000)).
  { vm_compute. left. reflexivity. }
  split; [exact Hin|].
  destruct (facts_are_normalised _ _ _ _ Hin) as (H1 & _ & H3 & _ & H5 & _).
  auto.
Defined.

Lemma convert_loop_break (limit : Z) (failure : option exn) (rows : list row) :
  forall (i : Z) (facts : list fact),
    Z.max 0 (limit - i) < Z.of_nat (length rows) ->
    convert_loop limit i rows failure facts
    = convert_loop limit i rows None facts.
Proof.
  induction rows as [|r rows IH]; intros i facts H; simpl in *; [lia|].
  destruct (Z.leb_spec limit i) as [Hle|Hlt]; [reflexivity|].
  destruct (skipped (narrative_of r)); apply IH; lia.
Qed.

(** A read failure that lies beyond the limit is never met: when the file
    holds more rows than the limit before it fails, the converter returns
    and prints what it would for a file that reads to its end. *)
Theorem convert_ignores_late_failure (csv_path : string) (rows : list row)
    (e : exn) (limit : Z) :
  Z.max 0 limit < Z.of_nat (length rows) ->
  convert_complaints_to_facts csv_path (Reader rows (Some e)) limit
  = convert_complaints_to_facts csv_path (Reader rows None) limit.
Proof.
  intros H. unfold convert_complaints_to_facts, convert_body.
  rewrite convert_loop_break by (rewrite Z.sub_0_r; exact H). reflexivity.
Qed.

Lemma convert_ignores_late_failure_witness :
  convert_complaints_to_facts "data/complaints.csv"
    (Reader [good_row; short_row] (Some (OtherError "line contains NUL"))) 1
  = convert_complaints_to_facts "data/complaints.csv"
      (Reader [good_row; short_row] None) 1
  /\ facts_of "data/complaints.csv"
       (Reader [good_row; short_row] (Some (OtherError "line contains NUL"))) 1
     = [fact_of good_row].
Proof.
  assert (H := convert_ignores_late_failure "data/complaints.csv"
                 [good_row; short_row] (OtherError "line contains NUL") 1).
  split; [apply H; simpl; lia|]. unfold facts_of. rewrite H by (simpl; lia).
  vm_compute. reflexivity.
Defined.

Lemma kept_app (a b : list row) : kept (a ++ b) = kept a ++ kept b.
Proof. unfold kept. now rewrite List.filter_app, map_app. Qed.

Lemma firstn_plus {A} (n k : nat) (l : list A) :
  firstn (n + k) l = firstn n l ++ firstn k (skipn n l).
Proof.
  revert l. induction n as [|n IH]; intros [|x l]; simpl;
    try reflexivity; [now rewrite firstn_nil|now rewrite IH].
Qed.

(** Raising the limit only adds facts at the end: the facts returned under
    the smaller limit open the list returned under the larger, and those
    that follow come from the rows between the two limits. *)
Theorem convert_limit_extends (csv_path : string) (rows : list row)
    (limit limit' : Z) :
  limit <= limit' ->
  facts_of csv_path (Reader rows None) limit'
  = facts_of csv_path (Reader rows None) limit
    ++ kept (firstn (Z.to_nat limit' - Z.to_nat limit)
               (skipn (Z.to_nat limit) rows)).
Proof.
  intros H. rewrite !facts_of_reads, <- kept_app, <- firstn_plus.
  f_equal. f_equal. lia.
Qed.

Lemma convert_limit_extends_witness :
  facts_of "data/complaints.csv"
    (Reader [good_row; short_row; blank_company_row] None) 3
  = facts_of "data/complaints.csv"
      (Reader [good_row; short_row; blank_company_row] None) 1
    ++ [fact_of blank_company_row].
Proof.
  rewrite (convert_limit_extends _ _ 1 3) by lia.
  f_equal.
Defined.

(** The limit at its bounds: a limit of zero or less returns no fact, and a
    limit that is at least the number of rows returns the fact of every
    qualifying row. *)
Theorem convert_limit_bounds (csv_path : string) (rows : list row)
    (limit : Z) :
  (limit <= 0 -> facts_of csv_path (Reader rows None) limit = [])
  /\ (Z.of_nat (length rows) <= limit ->
      facts_of csv_path (Reader rows None) limit = kept rows).
Proof.
  rewrite facts_of_reads. split; intros H.
  - now replace (Z.to_nat limit) with O by lia.
  - now rewrite firstn_all2 by lia.
Qed.

(** [main] writes the output file exactly when the converter returned a
    fact, and then with every fact returned: it never writes an empty
    array.  When the input cannot be opened, or fails to read at a row the
    loop reaches, nothing is written and the run ends on the notice that no
    fact was generated. *)
Theorem importer_main_writes_facts (json_dumps : fact -> string)
    (input output : string) (src : csv_source) (limit : Z) :
  let run := importer_main json_dumps input output src limit in
  let facts := facts_of input src limit in
  (run_written run = None <-> facts = [])
  /\ (facts <> [] -> run_written run = Some facts)
  /\ (facts = [] ->
      run_lines run = printed input src limit ++ [NO_FACTS_NOTICE])
  /\ (forall e,
        src = OpenFails e
        \/ (exists rows, src = Reader rows (Some e)
                         /\ Z.of_nat (length rows) <= Z.max 0 limit) ->
        run_written run = None
        /\ List.last (run_lines run) "" = NO_FACTS_NOTICE).
Proof.
  cbn zeta. unfold importer_main, facts_of, printed.
  assert (Hfail : forall e,
             src = OpenFails e
             \/ (exists rows, src = Reader rows (Some e)
                              /\ Z.of_nat (length rows) <= Z.max 0 limit) ->
             fst (convert_complaints_to_facts input src limit) = []).
  { intros e H.
    assert (Hb : convert_body src limit = Raise e).
    { destruct H as [->|(rows & -> & Hlen)]; [reflexivity|].
      apply convert_loop_fails. now rewrite Z.sub_0_r. }
    unfold convert_complaints_to_facts. rewrite Hb. now destruct e. }
  destruct (convert_complaints_to_facts input src limit) as [facts lines].
  cbn [fst snd] in *. destruct facts as [|f facts]; cbn [run_written run_lines].
  - split; [easy|]. split; [easy|]. split; [easy|].
    intros e H. split; [reflexivity|apply List.last_last].
  - split; [easy|]. split; [easy|]. split; [easy|].
    intros e H. now apply Hfail in H.
Qed.

Lemma importer_main_writes_facts_witness :
  run_written (importer_main (fun _ => "{}") "data/complaints.csv"
                 "data/facts_seed.json"
                 (Reader [short_row; good_row] None) 1000)
  = Some [fact_of good_row]
  /\ run_written (importer_main (fun _ => "{}") "data/complaints.csv"
                    "data/facts_seed.json" (OpenFails FileNotFoundError) 1000)
     = None.
Proof.
  destruct (importer_main_writes_facts (fun _ => "{}") "data/complaints.csv"
              "data/facts_seed.json" (Reader [short_row; good_row] None) 1000)
    as (_ & H & _).
  destruct (importer_main_writes_facts (fun _ => "{}") "data/complaints.csv"
              "data/facts_seed.json" (OpenFails FileNotFoundError) 1000)
    as (_ & _ & _ & H').
  split.
  - rewrite H; [vm_compute; reflexivity|vm_compute; discriminate].
  - apply (H' FileNotFoundError). now left.
Defined.

(** ** Token estimates and excerpts *)

(** The estimate is zero for the empty text only, and otherwise the least
    number of four-character tokens that cover the text: between a quarter
    of its length and, short of one, a quarter more. *)
Theorem token_estimate_bounds (text : string) :
  (token_estimate text = 0 <-> text = "")
  /\ Py.len text <= 4 * token_estimate text
  /\ 4 * token_estimate text < Py.len text + 4.
Proof.
  rewrite token_estimate_ceil4, ceil4_div.
  assert (H : 0 <= Py.len text) by (unfold Py.len; lia).
  assert (H0 : Py.len text = 0 <-> text = "").
  { destruct text; unfold Py.len; simpl; split; intros; (reflexivity || (try discriminate); lia). }
  split; [|split]; [rewrite <- H0|..]; Z.div_mod_to_equations; lia.
Qed.

Lemma substring_0_length (n : nat) (s : string) :
  String.length (String.substring 0 n s) = Nat.min n (String.length s).
Proof.
  revert s. induction n as [|n IH]; intros [|c s]; simpl; try reflexivity.
  now rewrite IH.
Qed.

Lemma substring_0_all (n : nat) (s : string) :
  (String.length s <= n)%nat -> String.substring 0 n s = s.
Proof.
  revert s. induction n as [|n IH]; intros [|c s] H; simpl in *;
    try reflexivity; [lia|]. rewrite IH by lia. reflexivity.
Qed.

(** The excerpt of a turn is never longer than 140 characters; it is the
    whole text, with no ellipsis, exactly when the text has at most 140
    characters, and its first 140 characters followed by the ellipsis
    otherwise. *)
Theorem excerpt_bounds (text : string) :
  let (shown, ellipsis) := excerpt text in
  Py.len shown <= 140
  /\ (Py.len text <= 140 -> shown = text /\ ellipsis = false)
  /\ (140 < Py.len text -> Py.len shown = 140 /\ ellipsis = true)
  /\ exists rest, text = (shown ++ rest)%string.
Proof.
  unfold excerpt, Py.len. rewrite substring_0_length.
  split; [lia|]. split; [|split].
  - intros H. split; [apply substring_0_all; lia|]. apply Z.ltb_ge. lia.
  - intros H. split; [lia|]. apply Z.ltb_lt. lia.
  - generalize 140%nat. intros n. revert text.
    induction n as [|n IH]; intros [|c s]; simpl; eauto.
    destruct (IH s) as [rest Hr]. exists rest.
    lazy beta iota delta [String.append]. fold String.append. now rewrite <- Hr.
Qed.

(** ** The classifier, further *)

Lemma blob_of_lower (u a : string) :
  blob_of u a = (Py.lower u ++ Py.NL ++ Py.lower a)%string.
Proof. unfold blob_of. now rewrite !lower_app. Qed.

(** The classifier disregards letter case: two pairs of texts that agree
    once lower-cased receive the same label. *)
Theorem classify_turn_ignores_case (u a u' a' : string) :
  Py.lower u = Py.lower u' -> Py.lower a = Py.lower a' ->
  classify_turn u a = classify_turn u' a'.
Proof.
  intros Hu Ha. unfold classify_turn. cbn zeta.
  now rewrite (blob_of_lower u a), (blob_of_lower u' a'), Hu, Ha.
Qed.

Lemma classify_turn_ignores_case_witness :
  classify_turn "Build FAILED" "See the LOG" = classify_turn "build failed" "see the log"
  /\ classify_turn "build failed" "see the log" = DEBUG_LOG.
Proof.
  split; [|vm_compute; reflexivity].
  apply classify_turn_ignores_case; reflexivity.
Defined.

Lemma isword_lower (c : ascii) : Py.isword (Py.lower_char c) = Py.isword c.
Proof. destruct c as [[] [] [] [] [] [] [] []]; reflexivity. Qed.

Lemma no_word_chars_lower (s : string) :
  no_word_chars (Py.lower s) = no_word_chars s.
Proof.
  induction s as [|c s IH]; [reflexivity|]. simpl.
  now rewrite isword_lower, IH.
Qed.

Lemma no_word_chars_app (s t : string) :
  no_word_chars (s ++ t) = no_word_chars s && no_word_chars t.
Proof.
  induction s as [|c s IH]; [reflexivity|].
  lazy beta iota delta [String.append]. fold String.append.
  cbn [no_word_chars]. now rewrite IH, andb_assoc.
Qed.

Lemma boundary_needs_word (r : Re.regex) (s : string) :
  forall prev,
    Re.word_before prev = false -> no_word_chars s = true ->
    Re.search_from (Re.Seq Re.Bnd r) prev s = false.
Proof.
  induction s as [|c s IH]; intros prev Hp Hs; cbn [Re.search_from Re.rmatch].
  - unfold Re.at_boundary. rewrite Hp. reflexivity.
  - cbn [no_word_chars] in Hs. apply andb_true_iff in Hs as [Hc Hs].
    apply negb_true_iff in Hc.
    unfold Re.at_boundary at 1. rewrite Hp. cbn [Re.word_after]. rewrite Hc.
    cbn [xorb andb orb]. apply IH; [exact Hc|exact Hs].
Qed.

Lemma search_needs_word (pattern text : string) :
  opens_with_boundary pattern = true -> no_word_chars text = true ->
  Re.search pattern text = false.
Proof.
  unfold opens_with_boundary, Re.search. intros Hp Ht.
  destruct (Re.compile pattern) as [[| | | | |[] r2| | |]|]; try discriminate.
  now apply boundary_needs_word.
Qed.

Lemma any_match_needs_word (patterns : list string) (text : string) :
  forallb opens_with_boundary patterns = true -> no_word_chars text = true ->
  any_match text patterns = false.
Proof.
  intros Hp Ht. unfold any_match. induction patterns as [|p ps IH];
    [reflexivity|].
  cbn [forallb existsb] in *. apply andb_true_iff in Hp as [Hp Hps].
  now rewrite (search_needs_word _ _ Hp Ht), IH.
Qed.

(** Every pattern of the classifier opens with a word boundary, so a turn
    whose two texts hold no letter, digit or underscore matches none of
    them and is [OTHER]. *)
Theorem classify_turn_needs_a_word (u a : string) :
  no_word_chars u = true -> no_word_chars a = true ->
  classify_turn u a = OTHER.
Proof.
  intros Hu Ha.
  assert (Hb : no_word_chars (blob_of u a) = true).
  { unfold blob_of. rewrite no_word_chars_lower, !no_word_chars_app, Hu, Ha.
    reflexivity. }
  unfold classify_turn. cbn zeta.
  rewrite !(fun p H => search_needs_word p _ H Hb) by (vm_compute; reflexivity).
  rewrite !(fun ps H => any_match_needs_word ps _ H Hb)
    by (vm_compute; reflexivity).
  reflexivity.
Qed.

Lemma classify_turn_needs_a_word_witness :
  classify_turn "???" "... !!! (-:" = OTHER.
Proof. apply classify_turn_needs_a_word; reflexivity. Defined.

Lemma string_length_app (s t : string) :
  String.length (s ++ t) = (String.length s + String.length t)%nat.
Proof.
  induction s as [|c s IH]; [reflexivity|].
  lazy beta iota delta [String.append]. fold String.append.
  cbn [String.length]. now rewrite IH.
Qed.

(** A run of blanks is matched by [\s*]. *)
Lemma star_blank (k : option ascii -> string -> bool) (rest ws : string) :
  forall (n : nat) (prev : option ascii),
    (String.length ws <= n)%nat -> blank_only ws = true ->
    k (last_char prev ws) rest = true ->
    (fix star (n : nat) (prev : option ascii) (s : string) {struct n} : bool :=
       match n with
       | O => k prev s
       | S n' =>
           Re.rmatch (Re.Cls Re.CSpace) prev s
             (fun p s' =>
                (String.length s' <? String.length s)%nat && star n' p s')
           || k prev s
       end) n prev (ws ++ rest)%string = true.
Proof.
  induction ws as [|c ws IH]; intros n prev Hn Hb Hk.
  - change (("" ++ rest)%string) with rest. simpl in Hk.
    destruct n; [exact Hk|]. rewrite Hk. apply orb_true_r.
  - destruct n as [|n]; [simpl in Hn; lia|].
    cbn [blank_only] in Hb. apply andb_true_iff in Hb as [Hc Hb].
    change ((String c ws ++ rest)%string) with (String c (ws ++ rest)%string).
    assert (E := IH n (Some c) ltac:(simpl in Hn; lia) Hb Hk).
    cbn [Re.rmatch Re.in_cset] in E |- *. rewrite Hc, E. cbn [andb].
    cbn [String.length]. rewrite (proj2 (Nat.ltb_lt _ _)) by lia.
    reflexivity.
Qed.

Ltac marker_search :=
  intros (pre & ws & post & -> & Hb & Hw & Ha);
  unfold Re.search;
  match goal with
  | |- context [Re.compile ?p] =>
      let r := eval vm_compute in (Re.compile p) in
      change (Re.compile p) with r
  end;
  apply search_from_skip;
  match goal with
  | |- context [("mode:" ++ ?t)%string] =>
      change ("mode:" ++ t)%string
        with (String "m" (String "o" (String "d" (String "e" (String ":" t)))))
  end;
  cbn [Re.rmatch]; unfold Re.at_boundary at 1; rewrite Hb;
  cbn -[String.append String.length Nat.ltb];
  apply star_blank;
  [ rewrite string_length_app; lia
  | exact Hw
  | lazy beta iota delta [String.append];
    cbn; unfold Re.at_boundary; rewrite Ha; reflexivity ].

Lemma marker_test (blob : string) :
  has_marker "test" blob -> Re.search MODE_TEST blob = true.
Proof. marker_search. Qed.

Lemma marker_docs (blob : string) :
  has_marker "docs" blob -> Re.search MODE_DOCS blob = true.
Proof. marker_search. Qed.

Lemma marker_ask (blob : string) :
  has_marker "ask" blob -> Re.search MODE_ASK blob = true.
Proof. marker_search. Qed.

Lemma marker_plan (blob : string) :
  has_marker "plan" blob -> Re.search MODE_PLAN blob = true.
Proof. marker_search. Qed.

(** A "mode: test" or "mode: docs" marker decides the category: when
    the lowered text of the turn holds the marker as a whole word, with any
    run of blanks (line breaks included, so the marker may begin in the user
    text and end in the reply) after the colon, the turn is TEST_DOCS_CI
    whatever debugging or feature vocabulary the rest of the text has. *)
Theorem test_marker_dominates (u a : string) :
  has_marker "test" (blob_of u a) \/ has_marker "docs" (blob_of u a) ->
  classify_turn u a = TEST_DOCS_CI.
Proof.
  intros H. unfold classify_turn. cbv zeta.
  destruct H as [H | H].
  - now rewrite (marker_test _ H).
  - rewrite (marker_docs _ H).
    now destruct (Re.search MODE_TEST (blob_of u a)).
Qed.

Lemma test_marker_dominates_witness :
  classify_turn "fix the crash. MODE:" "  Test this" = TEST_DOCS_CI.
Proof.
  apply test_marker_dominates. left.
  exists "fix the crash. ", (Py.NL ++ "  ")%string, " this".
  repeat split; vm_compute; reflexivity.
Defined.

(** ** Reading a marker off a match *)

Lemma icase_lowered (p c : ascii) :
  Re.eq_icase p c = true -> Py.lower_char c = c -> c = Py.lower_char p.
Proof.
  unfold Re.eq_icase. intros E Hc. apply Ascii.eqb_eq in E. congruence.
Qed.

Lemma lowered_suffix (pre rest : string) :
  Py.lower (pre ++ rest) = (pre ++ rest)%string -> Py.lower rest = rest.
Proof.
  induction pre as [|c pre IH]; intros H; [exact H|].
  lazy beta iota delta [String.append] in H. fold String.append in H.
  cbn [Py.lower] in H. injection H as _ H. exact (IH H).
Qed.

Lemma search_from_inv (r : Re.regex) (s : string) :
  forall prev,
    Re.search_from r prev s = true ->
    exists pre rest,
      s = (pre ++ rest)%string
      /\ Re.rmatch r (last_char prev pre) rest (fun _ _ => true) = true.
Proof.
  induction s as [|c s IH]; intros prev H; cbn [Re.search_from] in H;
    apply orb_true_iff in H as [H|H].
  - now exists "", "".
  - discriminate.
  - now exists "", (String c s).
  - destruct (IH _ H) as (pre & rest & -> & Hm).
    now exists (String c pre), rest.
Qed.

Lemma star_blank_inv (k : option ascii -> string -> bool) :
  forall (n : nat) (prev : option ascii) (s : string),
    (fix star (n : nat) (prev : option ascii) (s : string) {struct n} : bool :=
       match n with
       | O => k prev s
       | S n' =>
           Re.rmatch (Re.Cls Re.CSpace) prev s
             (fun p s' =>
                (String.length s' <? String.length s)%nat && star n' p s')
           || k prev s
       end) n prev s = true ->
    exists ws rest,
      s = (ws ++ rest)%string
      /\ blank_only ws = true
      /\ k (last_char prev ws) rest = true.
Proof.
  induction n as [|n IH]; intros prev s H.
  - now exists "", s.
  - apply orb_true_iff in H as [H|H]; [|now exists "", s].
    cbn [Re.rmatch Re.in_cset] in H. destruct s as [|c s]; [discriminate|].
    apply andb_true_iff in H as [Hc H]. apply andb_true_iff in H as [_ H].
    destruct (IH _ _ H) as (ws & rest & -> & Hw & Hk).
    exists (String c ws), rest. cbn [blank_only last_char]. rewrite Hc.
    now repeat split.
Qed.

(** One literal character of the pattern, read off a lowered text. *)
Ltac marker_char H Hl :=
  match type of H with
  | match ?s with EmptyString => _ | String _ _ => _ end = true =>
      let c := fresh "c" in
      let E := fresh "E" in
      let L := fresh "L" in
      destruct s as [|c s]; [discriminate H|];
      apply andb_true_iff in H as [E H];
      cbn [Py.lower] in Hl; injection Hl as L Hl;
      apply (fun e => icase_lowered _ _ e L) in E;
      vm_compute in E; subst c
  end.

Ltac marker_found :=
  intros Hl H; unfold Re.search in H;
  match type of H with
  | context [Re.compile ?p] =>
      let r := eval vm_compute in (Re.compile p) in
      change (Re.compile p) with r in H
  end;
  apply search_from_inv in H as (pre & rest & -> & H);
  apply lowered_suffix in Hl;
  cbn [Re.rmatch] in H;
  apply andb_true_iff in H as [Hb H];
  do 5 marker_char H Hl;
  apply star_blank_inv in H as (ws & post & -> & Hw & H);
  apply lowered_suffix in Hl;
  cbn beta in H;
  do 4 marker_char H Hl;
  apply andb_true_iff in H as [Ha _];
  exists pre, ws, post; split; [reflexivity|];
  unfold Re.at_boundary in Hb, Ha; cbn in Hb, Ha;
  split; [now destruct (Re.word_before _)|];
  split; [exact Hw|now destruct (Re.word_after _)].

Lemma marker_test_found (blob : string) :
  Py.lower blob = blob -> Re.search MODE_TEST blob = true ->
  has_marker "test" blob.
Proof. marker_found. Qed.

Lemma marker_docs_found (blob : string) :
  Py.lower blob = blob -> Re.search MODE_DOCS blob = true ->
  has_marker "docs" blob.
Proof. marker_found. Qed.

(** An "ask" or "plan" marker switches the keyword tables off.  A turn
    whose lowered text holds one is OTHER whatever vocabulary it uses,
    unless a "test" or "docs" marker is there as well, which makes it
    TEST_DOCS_CI: it is never DEBUG_LOG and never FEATURE_DEV, and it is
    TEST_DOCS_CI only by a marker. *)
Theorem ask_marker_silences_keywords (u a : string) :
  has_marker "ask" (blob_of u a) \/ has_marker "plan" (blob_of u a) ->
  (has_marker "test" (blob_of u a) \/ has_marker "docs" (blob_of u a) ->
   classify_turn u a = TEST_DOCS_CI)
  /\ (~ (has_marker "test" (blob_of u a) \/ has_marker "docs" (blob_of u a)) ->
      classify_turn u a = OTHER).
Proof.
  intros H. unfold classify_turn. cbv zeta.
  assert (Hl : Py.lower (blob_of u a) = blob_of u a)
    by (unfold blob_of; apply lower_idem).
  split.
  - intros [Ht | Hd].
    + now rewrite (marker_test _ Ht).
    + rewrite (marker_docs _ Hd).
      now destruct (Re.search MODE_TEST (blob_of u a)).
  - intros Hnone.
    destruct (Re.search MODE_TEST (blob_of u a)) eqn:Et.
    { exfalso. apply Hnone. left. now apply marker_test_found. }
    destruct (Re.search MODE_DOCS (blob_of u a)) eqn:Ed.
    { exfalso. apply Hnone. right. now apply marker_docs_found. }
    destruct H as [H | H].
    + now rewrite (marker_ask _ H).
    + rewrite (marker_plan _ H).
      now destruct (Re.search MODE_ASK (blob_of u a)).
Qed.

Lemma ask_marker_silences_keywords_witness :
  classify_turn "MODE: ASK how do I run pytest" "the build failed" = OTHER.
Proof.
  apply ask_marker_silences_keywords.
  - left.
    exists "", " ", (" how do i run pytest" ++ Py.NL ++ "the build failed")%string.
    repeat split; vm_compute; reflexivity.
  - intros [H | H].
    + apply marker_test in H. vm_compute in H. discriminate H.
    + apply marker_docs in H. vm_compute in H. discriminate H.
Defined.

(** ** The turns and the initiating messages *)

Lemma user_indices_from_nth (msgs pre : list message) :
  map (nth_error (pre ++ msgs)) (user_indices_from (List.length pre) msgs)
  = map Some (user_messages msgs).
Proof.
  revert pre. induction msgs as [|m msgs IH]; intros pre; [reflexivity|].
  assert (E : map (nth_error (pre ++ m :: msgs))
                (user_indices_from (S (List.length pre)) msgs)
              = map Some (user_messages msgs)).
  { specialize (IH (pre ++ [m])).
    rewrite <- List.app_assoc, List.length_app, Nat.add_1_r in IH. exact IH. }
  cbn [user_indices_from user_messages List.filter]. unfold is_user at 1.
  destruct (String.eqb (role m) "user"); [|exact E].
  cbn [map]. rewrite E. f_equal.
  rewrite nth_error_app2, Nat.sub_diag by lia. reflexivity.
Qed.

Lemma turns_loop_users (msgs : list message) (uis : list nat)
    (cap_minutes : Z) (todo : list nat) :
  forall (idx : nat) (ts : list turn) (us : list message),
    turns_loop msgs uis cap_minutes idx todo = Ok ts ->
    map (nth_error msgs) todo = map Some us ->
    map user_time ts = map timestamp us
    /\ map user_chars ts = map (fun m => Py.len (content m)) us
    /\ map user_excerpt ts = map (fun m => excerpt (content m)) us.
Proof.
  induction todo as [|ui todo IH]; intros idx ts us H Hus; simpl in H.
  - injection H as <-. destruct us; [now repeat split|discriminate].
  - apply bind_ok in H as (t0 & Ht0 & H).
    apply bind_ok in H as (ts0 & Hts0 & H). injection H as <-.
    destruct us as [|u us]; [discriminate|]. cbn [map] in Hus.
    injection Hus as Hu Hus.
    apply make_turn_ok in Ht0 as (u' & next_u & dur & Hu' & _ & _ & ->).
    rewrite Hu in Hu'. injection Hu' as <-.
    destruct (IH _ _ _ Hts0 Hus) as (E1 & E2 & E3).
    cbn [map]. rewrite E1, E2, E3. now repeat split.
Qed.

(** Whenever the cap is in range, [group_turns] returns exactly one turn
    for each message of role "user", in the order of the messages: the
    turns' start times, character counts and excerpts are those of the
    initiating messages, one after the other.  Messages of any other role
    start no turn. *)
Theorem group_turns_one_turn_per_user (msgs : list message)
    (cap_minutes : Z) :
  cap_in_range msgs cap_minutes ->
  exists turns,
    group_turns msgs cap_minutes = Ok turns
    /\ map user_time turns = map timestamp (user_messages msgs)
    /\ map user_chars turns
       = map (fun m => Py.len (content m)) (user_messages msgs)
    /\ map user_excerpt turns
       = map (fun m => excerpt (content m)) (user_messages msgs).
Proof.
  intros (Hcap & Hcap5 & Hrange).
  destruct (group_turns_returns msgs cap_minutes Hcap Hcap5 Hrange)
    as (turns & H & _).
  exists turns. split; [exact H|].
  apply (turns_loop_users msgs (user_indices msgs) cap_minutes
           (user_indices msgs) O turns (user_messages msgs) H).
  exact (user_indices_from_nth msgs []).
Qed.

Lemma group_turns_one_turn_per_user_witness :
  exists turns,
    group_turns deploy_chat 20 = Ok turns
    /\ map user_time turns = map timestamp (user_messages deploy_chat)
    /\ map user_chars turns
       = map (fun m => Py.len (content m)) (user_messages deploy_chat)
    /\ map user_excerpt turns
       = map (fun m => excerpt (content m)) (user_messages deploy_chat).
Proof.
  apply group_turns_one_turn_per_user.
  split; [reflexivity|]. split; [reflexivity|].
  intros m [<-|[<-|[<-|[<-|[]]]]]; reflexivity.
Defined.

(** ** Credited durations *)

(** [round] returns one of the two multiples of the unit that enclose its
    argument, the upper one only when the argument is no multiple. *)
Lemma round_cases (x : Q) (ndigits : nat) :
  let scale := Z.pow 10 (Z.of_nat ndigits) in
  let y := Qmult x (inject_Z scale) in
  exists k : Z,
    Qeq (Fl.round x ndigits) (Qdiv (inject_Z k) (inject_Z scale))
    /\ (k = Qfloor y \/ (k = Qfloor y + 1 /\ Qlt (inject_Z (Qfloor y)) y)).
Proof.
  cbv zeta. unfold Fl.round.
  set (scale := Z.pow 10 (Z.of_nat ndigits)).
  set (y := Qmult x (inject_Z scale)). set (f := Qfloor y).
  assert (Hup : (exists k : Z,
             Qeq (Qred (Qdiv (inject_Z (f + 1)) (inject_Z scale)))
                 (Qdiv (inject_Z k) (inject_Z scale))
             /\ (k = f \/ (k = f + 1 /\ Qlt (inject_Z f) y)))
           \/ ~ Qlt (inject_Z f) y).
  { destruct (Qlt_le_dec (inject_Z f) y) as [H|H].
    - left. exists (f + 1). split; [apply Qred_correct|]. right. now split.
    - right. intros H'. exact (Qlt_not_le _ _ H' H). }
  assert (Hdown : exists k : Z,
             Qeq (Qred (Qdiv (inject_Z f) (inject_Z scale)))
                 (Qdiv (inject_Z k) (inject_Z scale))
             /\ (k = f \/ (k = f + 1 /\ Qlt (inject_Z f) y))).
  { exists f. split; [apply Qred_correct|]. now left. }
  destruct (Qcompare (Qminus y (inject_Z f)) (1 # 2)) eqn:E.
  - destruct (Z.even f); [exact Hdown|].
    destruct Hup as [H|H]; [exact H|]. exfalso. apply H.
    apply Qeq_alt in E. apply Qlt_minus_iff. 
    unfold Qminus in E. rewrite E. reflexivity.
  - exact Hdown.
  - destruct Hup as [H|H]; [exact H|]. exfalso. apply H.
    apply Qgt_alt in E. apply Qlt_minus_iff.
    eapply Qlt_trans; [|exact E]. reflexivity.
Qed.

Lemma round_le_int (x : Q) (z : Z) (ndigits : nat) :
  Qle x (inject_Z z) -> Qle (Fl.round x ndigits) (inject_Z z).
Proof.
  intros Hx. destruct (round_cases x ndigits) as (k & -> & Hk).
  set (scale := Z.pow 10 (Z.of_nat ndigits)) in *.
  assert (Hs : 0 < scale) by (apply Z.pow_pos_nonneg; lia).
  assert (Hsq : Qlt 0 (inject_Z scale)) by (change 0%Q with (inject_Z 0); rewrite <- Zlt_Qlt; exact Hs).
  assert (Hy : Qle (Qmult x (inject_Z scale)) (inject_Z (z * scale))).
  { rewrite inject_Z_mult. apply Qmult_le_compat_r; [exact Hx|].
    now apply Qlt_le_weak. }
  apply Qle_shift_div_r; [exact Hsq|]. rewrite <- inject_Z_mult.
  rewrite <- Zle_Qle.
  assert (Hf : Qfloor (Qmult x (inject_Z scale)) <= z * scale).
  { rewrite <- (Qfloor_Z (z * scale)). now apply Qfloor_resp_le. }
  destruct Hk as [->|[-> Hlt]]; [exact Hf|].
  assert (Qlt (inject_Z (Qfloor (Qmult x (inject_Z scale))))
            (inject_Z (z * scale))) as H
    by (eapply Qlt_le_trans; eassumption).
  rewrite <- Zlt_Qlt in H. lia.
Qed.

Lemma round_ge_int (x : Q) (z : Z) (ndigits : nat) :
  Qle (inject_Z z) x -> Qle (inject_Z z) (Fl.round x ndigits).
Proof.
  intros Hx. destruct (round_cases x ndigits) as (k & -> & Hk).
  set (scale := Z.pow 10 (Z.of_nat ndigits)) in *.
  assert (Hs : 0 < scale) by (apply Z.pow_pos_nonneg; lia).
  assert (Hsq : Qlt 0 (inject_Z scale)) by (change 0%Q with (inject_Z 0); rewrite <- Zlt_Qlt; exact Hs).
  assert (Hy : Qle (inject_Z (z * scale)) (Qmult x (inject_Z scale))).
  { rewrite inject_Z_mult. apply Qmult_le_compat_r; [exact Hx|].
    now apply Qlt_le_weak. }
  apply Qle_shift_div_l; [exact Hsq|]. rewrite <- inject_Z_mult.
  rewrite <- Zle_Qle.
  assert (Hf : z * scale <= Qfloor (Qmult x (inject_Z scale))).
  { rewrite <- (Qfloor_Z (z * scale)). now apply Qfloor_resp_le. }
  destruct Hk as [->|[-> _]]; lia.
Qed.

Lemma minutes_of_bounds (d c : Z) :
  0 <= d <= c * Dt.US_PER_MINUTE ->
  Qle (inject_Z 0) (Dt.minutes_of d) /\ Qle (Dt.minutes_of d) (inject_Z c).
Proof.
  unfold Dt.minutes_of, Dt.US_PER_MINUTE, Dt.US_PER_SECOND, Qdiv, Qle.
  simpl. lia.
Qed.

Lemma StronglySorted_nth {A : Type} (R : A -> A -> Prop) (l : list A) :
  StronglySorted R l ->
  forall (i j : nat) (a b : A),
    (i < j)%nat -> nth_error l i = Some a -> nth_error l j = Some b -> R a b.
Proof.
  induction 1 as [|x l Hl IH Hx]; intros i j a b Hij Ha Hb.
  - destruct i; discriminate.
  - destruct j as [|j]; [lia|]. cbn [nth_error] in Hb.
    destruct i as [|i]; cbn [nth_error] in Ha.
    + injection Ha as <-.
      exact (proj1 (List.Forall_forall _ _) Hx b (nth_error_In _ _ Hb)).
    + apply (IH i j); [lia|assumption|assumption].
Qed.

Lemma user_indices_from_increasing (msgs : list message) :
  forall i, StronglySorted lt (user_indices_from i msgs).
Proof.
  induction msgs as [|m msgs IH]; intros i; cbn [user_indices_from];
    [constructor|].
  destruct (String.eqb (role m) "user"); [|apply IH].
  constructor; [apply IH|]. apply List.Forall_forall. intros ui H.
  destruct (user_indices_from_spec _ _ _ H) as (Hle & _). lia.
Qed.

Lemma time_le_trans : Relations_1.Transitive time_le.
Proof. intros a b c. unfold time_le. lia. Qed.

(** On messages in ascending order of time, as the loader returns them, and
    with a cap that is not negative, [group_turns] credits every turn at
    least nothing and at most the cap. *)
Theorem group_turns_durations_within_cap (msgs : list message)
    (cap_minutes : Z) :
  cap_in_range msgs cap_minutes ->
  Sorted time_le msgs ->
  0 <= cap_minutes ->
  exists turns,
    group_turns msgs cap_minutes = Ok turns
    /\ List.Forall (within_cap cap_minutes) turns.
Proof.
  intros (Hcap & Hcap5 & Hrange) Hsorted Hc.
  destruct (group_turns_returns msgs cap_minutes Hcap Hcap5 Hrange)
    as (turns & H & _).
  exists turns. split; [exact H|].
  apply List.Forall_forall. intros t Ht.
  apply In_nth_error in Ht as [k Hk]. unfold group_turns in H.
  destruct (turns_loop_nth _ _ _ _ _ _ H) as (_ & Hnth).
  destruct (Hnth _ _ Hk) as (ui & Hui & Hm). simpl in Hm.
  apply make_turn_ok in Hm as (u & next_u & dur & Hu & Hn & Hd & ->).
  unfold credited in Hd. apply bind_ok in Hd as (cap & Hcap' & Hd).
  apply timedelta_minutes_ok in Hcap'. injection Hd as <-. subst cap.
  assert (Hnext : timestamp u <= next_u).
  { unfold next_user_time in Hn.
    destruct (nth_error (user_indices msgs) (S k)) as [uj|] eqn:E.
    - apply bind_ok in Hn as (m & Hm & Hn). unfold item in Hm.
      destruct (nth_error msgs uj) as [m'|] eqn:Ej; [|discriminate].
      injection Hm as ->. injection Hn as <-.
      assert (Hlt : (ui < uj)%nat).
      { apply (StronglySorted_nth lt (user_indices msgs)
                 (user_indices_from_increasing msgs O) k (S k));
          [lia|assumption|assumption]. }
      apply (StronglySorted_nth time_le msgs
               (Sorted_StronglySorted time_le_trans Hsorted) ui uj);
        assumption.
    - apply bind_ok in Hn as (d & Hd & Hn).
      apply timedelta_minutes_ok in Hd. apply datetime_add_ok in Hn.
      subst. unfold Dt.US_PER_MINUTE, Dt.US_PER_SECOND. lia. }
  unfold within_cap, turn_record. cbn [duration_minutes].
  destruct (minutes_of_bounds
              (Z.min (next_u - timestamp u) (cap_minutes * Dt.US_PER_MINUTE))
              cap_minutes) as (Hlo & Hhi).
  { unfold Dt.US_PER_MINUTE, Dt.US_PER_SECOND. lia. }
  split; [now apply round_ge_int|now apply round_le_int].
Qed.

Lemma group_turns_durations_within_cap_witness :
  exists turns,
    group_turns deploy_chat 20 = Ok turns
    /\ List.Forall (within_cap 20) turns.
Proof.
  apply group_turns_durations_within_cap.
  - split; [reflexivity|]. split; [reflexivity|].
    intros m [<-|[<-|[<-|[<-|[]]]]]; reflexivity.
  - repeat constructor; vm_compute; discriminate.
  - lia.
Defined.

(** ** The reply of a turn *)

Lemma first_reply_skip (skipped rest : list message) :
  forallb other_role skipped = true ->
  first_reply (skipped ++ rest) = first_reply rest.
Proof.
  induction skipped as [|m skipped IH]; intros H; [reflexivity|].
  cbn [forallb] in H. apply andb_true_iff in H as [Hm H].
  unfold other_role in Hm. apply andb_true_iff in Hm as [Ha Hu].
  apply negb_true_iff in Ha, Hu.
  cbn [app first_reply]. rewrite Ha, Hu. now apply IH.
Qed.

(** The reply attached to a turn is the first message of role "assistant"
    after the initiating message, messages of other roles being passed over;
    when a message of role "user" comes first, or the messages run out, the
    turn has no reply: it is classified and estimated on the empty text. *)
Theorem group_turns_attaches_first_reply (msgs : list message)
    (cap_minutes : Z) (turns : list turn) (idx ui : nat) (t : turn)
    (u : message) (skipped : list message) :
  group_turns msgs cap_minutes = Ok turns ->
  nth_error turns idx = Some t ->
  nth_error (user_indices msgs) idx = Some ui ->
  nth_error msgs ui = Some u ->
  forallb other_role skipped = true ->
  (forall a rest,
     skipn (S ui) msgs = skipped ++ a :: rest -> role a = "assistant" ->
     answered_by u (content a) t)
  /\ (forall m rest,
        skipn (S ui) msgs = skipped ++ m :: rest -> role m = "user" ->
        answered_by u "" t)
  /\ (skipn (S ui) msgs = skipped -> answered_by u "" t).
Proof.
  intros H Ht Hui Hu Hsk. unfold group_turns in H.
  destruct (turns_loop_nth _ _ _ _ _ _ H) as (_ & Hnth).
  destruct (Hnth _ _ Ht) as (ui' & Hui' & Hm). simpl in Hm.
  rewrite Hui in Hui'. injection Hui' as <-.
  apply make_turn_ok in Hm as (u' & next_u & dur & Hu' & _ & _ & ->).
  rewrite Hu in Hu'. injection Hu' as <-.
  assert (Hrec : forall a_text, reply_text msgs ui = a_text ->
            answered_by u a_text (turn_record u (reply_text msgs ui) dur)).
  { intros a_text <-. now repeat split. }
  unfold reply_text in Hrec. split; [|split].
  - intros a rest E Ha. apply Hrec.
    rewrite E, (first_reply_skip _ _ Hsk). cbn [first_reply].
    now rewrite Ha.
  - intros m rest E Hr. apply Hrec.
    rewrite E, (first_reply_skip _ _ Hsk). cbn [first_reply].
    now rewrite Hr.
  - intros E. apply Hrec.
    rewrite E, <- (app_nil_r skipped), (first_reply_skip _ _ Hsk).
    reflexivity.
Qed.

Lemma group_turns_attaches_first_reply_witness :
  exists turns t u,
    group_turns deploy_chat 20 = Ok turns
    /\ nth_error turns 0 = Some t
    /\ nth_error deploy_chat 0 = Some u
    /\ answered_by u "found it, rolling back" t.
Proof.
  assert (E : exists turns t u,
             group_turns deploy_chat 20 = Ok turns
             /\ nth_error turns 0 = Some t
             /\ nth_error deploy_chat 0 = Some u).
  { vm_compute. do 3 eexists. repeat split; reflexivity. }
  destruct E as (turns & t & u & E & Et & Eu).
  exists turns, t, u. repeat (split; [assumption|]).
  destruct (group_turns_attaches_first_reply deploy_chat 20 turns 0 0 t u
              [ {| timestamp := at_time "2025-11-10 10:00:30";
                   role := "system"; content := "context trimmed" |} ]
              E Et eq_refl Eu eq_refl) as (H & _).
  exact (H _ _ eq_refl eq_refl).
Defined.

(** ** What [group_turns] raises *)

Lemma make_turn_raises (msgs : list message) (uis : list nat)
    (cap_minutes : Z) (idx ui : nat) (e : exn) :
  (forall uj, In uj uis -> exists m, nth_error msgs uj = Some m) ->
  (exists u, nth_error msgs ui = Some u) ->
  make_turn msgs uis cap_minutes idx ui = Raise e -> e = OverflowError.
Proof.
  intros Huis [u Hu]. unfold make_turn, item. rewrite Hu. cbn [bind].
  unfold next_user_time, credited, Dt.timedelta_minutes, Dt.add.
  destruct (nth_error uis (S idx)) as [uj|] eqn:E.
  - destruct (Huis uj (nth_error_In _ _ E)) as [m Hm].
    unfold item. rewrite Hm. cbn [bind].
    destruct (Dt.timedelta_ok (cap_minutes * _)); cbn [bind];
      [discriminate|now intros [= <-]].
  - destruct (Dt.timedelta_ok ((cap_minutes + 5) * _)); cbn [bind];
      [|now intros [= <-]].
    destruct (Dt.datetime_ok _); cbn [bind]; [|now intros [= <-]].
    destruct (Dt.timedelta_ok (cap_minutes * _)); cbn [bind];
      [discriminate|now intros [= <-]].
Qed.

Lemma turns_loop_raises (msgs : list message) (uis : list nat)
    (cap_minutes : Z) (todo : list nat) (e : exn) :
  (forall uj, In uj uis -> exists m, nth_error msgs uj = Some m) ->
  (forall ui, In ui todo -> exists m, nth_error msgs ui = Some m) ->
  forall idx,
    turns_loop msgs uis cap_minutes idx todo = Raise e -> e = OverflowError.
Proof.
  intros Huis. induction todo as [|ui todo IH]; intros Htodo idx;
    cbn [turns_loop]; [discriminate|].
  destruct (make_turn msgs uis cap_minutes idx ui) as [t|e'] eqn:Et;
    cbn [bind].
  - destruct (turns_loop msgs uis cap_minutes (S idx) todo) as [ts|e'] eqn:Ets;
      cbn [bind]; [discriminate|].
    intros [= <-]. apply (IH (fun ui' H => Htodo ui' (or_intror H)) (S idx)).
    exact Ets.
  - intros [= <-].
    apply (make_turn_raises msgs uis cap_minutes idx ui e' Huis);
      [apply Htodo; now left|exact Et].
Qed.

(** [group_turns] looks up no message that is not there and divides by
    nothing: the only exception it raises is the OverflowError of the date
    arithmetic, and it raises it only when there is an initiating message
    and the cap is out of range.  Without a message of role "user" it
    returns no turn, whatever the cap. *)
Theorem group_turns_raises_only_overflow (msgs : list message)
    (cap_minutes : Z) (e : exn) :
  group_turns msgs cap_minutes = Raise e ->
  e = OverflowError
  /\ user_messages msgs <> []
  /\ ~ cap_in_range msgs cap_minutes.
Proof.
  intros H.
  assert (Hin : forall ui, In ui (user_indices msgs) ->
                exists m, nth_error msgs ui = Some m).
  { intros ui Hui. apply In_nth_error in Hui as [k Hk].
    destruct (user_indices_spec _ _ _ Hk) as (m & Hm & _). eauto. }
  split; [|split].
  - exact (turns_loop_raises msgs (user_indices msgs) cap_minutes
             (user_indices msgs) e Hin Hin O H).
  - intros Hnone. pose proof (user_indices_from_nth msgs []) as E.
    rewrite Hnone in E. cbn [List.length app map] in E.
    unfold group_turns, user_indices in H.
    destruct (user_indices_from 0 msgs); [discriminate H|discriminate E].
  - intros (Hcap & Hcap5 & Hrange).
    destruct (group_turns_returns msgs cap_minutes Hcap Hcap5 Hrange)
      as (turns & Hok & _).
    rewrite Hok in H. discriminate.
Qed.

Lemma group_turns_raises_only_overflow_witness :
  OverflowError = OverflowError
  /\ user_messages two_users_35_apart <> []
  /\ ~ cap_in_range two_users_35_apart 1440000000000.
Proof.
  apply (group_turns_raises_only_overflow two_users_35_apart 1440000000000).
  reflexivity.
Defined.

(** ** The aggregator's totals *)

(** The aggregator loses no token and counts none twice: the grand total it
    reports is the sum of the estimates of all the turns, and each
    category's total is the sum over the turns of that category. *)
Theorem summarize_conserves_tokens (turns : list turn) :
  exists s,
    summarize turns = Ok s
    /\ grand_tokens s = tokens_sum turns
    /\ (forall c, share_tokens (summary_totals s c)
                  = tokens_sum (of_category c turns))
    /\ grand_tokens s
       = share_tokens (summary_totals s DEBUG_LOG)
         + share_tokens (summary_totals s FEATURE_DEV)
         + share_tokens (summary_totals s TEST_DOCS_CI)
         + share_tokens (summary_totals s OTHER).
Proof.
  unfold summarize. rewrite !share_entry_returns. cbn [bind].
  eexists. split; [reflexivity|].
  cbn [grand_tokens summary_totals share_tokens].
  assert (Hc : forall c, tokens (accumulate turns c)
                         = tokens_sum (of_category c turns)).
  { intros c. unfold accumulate. rewrite accumulate_tokens. reflexivity. }
  rewrite grand_tokens_of_sum, !Hc. split; [|split].
  - symmetry. apply tokens_sum_by_category.
  - intros c. now destruct c.
  - reflexivity.
Qed.

Lemma accumulate_nonneg (turns : list turn) :
  List.Forall nonnegative_turn turns ->
  forall totals : category -> tally,
    (forall c, 0 <= tokens (totals c) /\ Qle (inject_Z 0) (mins (totals c))) ->
    forall c,
      0 <= tokens (fold_left add_turn turns totals c)
      /\ Qle (inject_Z 0) (mins (fold_left add_turn turns totals c)).
Proof.
  induction 1 as [|t turns [Ht Hd] _ IH]; intros totals H c; [apply H|].
  cbn [fold_left]. apply IH. intros c'. unfold add_turn.
  destruct (H c') as [H1 H2].
  destruct (category_eqb c' (turn_category t)); cbn [tokens mins];
    [|now split].
  split; [lia|].
  change (inject_Z 0) with (Qplus (inject_Z 0) (inject_Z 0)).
  now apply Qplus_le_compat.
Qed.

Lemma share_pct_percentage (v grand : Q) :
  Qle (inject_Z 0) v -> Qle v grand -> is_percentage (share_pct v grand).
Proof.
  intros Hv Hg. unfold share_pct, is_percentage.
  destruct (Qeq_bool grand 0) eqn:E.
  - split; [apply Qle_refl|]. unfold Qle. simpl. lia.
  - assert (Hpos : Qlt 0 grand).
    { apply Qle_lteq in Hg as [Hlt|Heq].
      - eapply Qle_lt_trans; [exact Hv|exact Hlt].
      - apply Qle_lteq in Hv as [Hlt|Heq0].
        + rewrite <- Heq. exact Hlt.
        + exfalso. apply Qeq_bool_neq in E. apply E.
          rewrite <- Heq, <- Heq0. reflexivity. }
    split.
    + apply Qmult_le_0_compat; [|unfold Qle; simpl; lia].
      apply Qle_shift_div_l; [exact Hpos|].
      rewrite Qmult_0_l. exact Hv.
    + rewrite <- (Qmult_1_l (inject_Z 100)) at 2.
      apply Qmult_le_compat_r; [|unfold Qle; simpl; lia].
      apply Qle_shift_div_r; [exact Hpos|]. now rewrite Qmult_1_l.
Qed.

Lemma Qle_plus_l (a b : Q) : Qle (inject_Z 0) b -> Qle a (Qplus a b).
Proof.
  intros H. rewrite <- (Qplus_0_r a) at 1.
  apply Qplus_le_compat; [apply Qle_refl|exact H].
Qed.

Lemma Qle_plus_r (a b : Q) : Qle (inject_Z 0) b -> Qle a (Qplus b a).
Proof. intros H. rewrite Qplus_comm. now apply Qle_plus_l. Qed.

(** When no turn has a negative duration or token estimate, as is the case
    of the turns [group_turns] makes of time-ordered messages, every share
    the summary reports is a percentage: between 0 and 100. *)
Theorem summarize_shares_are_percentages (turns : list turn) :
  List.Forall nonnegative_turn turns ->
  exists s,
    summarize turns = Ok s
    /\ forall c,
         is_percentage (mins_share (summary_totals s c))
         /\ is_percentage (tokens_share (summary_totals s c)).
Proof.
  intros Hturns. unfold summarize. rewrite !share_entry_returns. cbn [bind].
  eexists. split; [reflexivity|]. cbn [summary_totals].
  assert (H0 : forall c, 0 <= tokens (totals0 c)
                         /\ Qle (inject_Z 0) (mins (totals0 c))).
  { intros c. split; [reflexivity|apply Qle_refl]. }
  pose proof (accumulate_nonneg turns Hturns totals0 H0) as Hacc.
  fold (accumulate turns) in Hacc.
  destruct (Hacc DEBUG_LOG) as [Td Md]. destruct (Hacc FEATURE_DEV) as [Tf Mf].
  destruct (Hacc TEST_DOCS_CI) as [Tt Mt]. destruct (Hacc OTHER) as [To Mo].
  assert (Hmins : forall c, Qle (mins (accumulate turns c))
                              (grand_mins_of (accumulate turns))).
  { intros c. rewrite grand_mins_of_sum. destruct c.
    - eapply Qle_trans; [|apply Qle_plus_l; exact Mo].
      eapply Qle_trans; [|apply Qle_plus_l; exact Mt].
      apply Qle_plus_l; exact Mf.
    - eapply Qle_trans; [|apply Qle_plus_l; exact Mo].
      eapply Qle_trans; [|apply Qle_plus_l; exact Mt].
      apply Qle_plus_r; exact Md.
    - eapply Qle_trans; [|apply Qle_plus_l; exact Mo].
      apply Qle_plus_r.
      change (inject_Z 0) with (Qplus (inject_Z 0) (inject_Z 0)).
      now apply Qplus_le_compat.
    - apply Qle_plus_r.
      change (inject_Z 0) with (Qplus (inject_Z 0) (inject_Z 0)).
      apply Qplus_le_compat; [|exact Mt].
      change (inject_Z 0) with (Qplus (inject_Z 0) (inject_Z 0)).
      now apply Qplus_le_compat. }
  assert (Htoks : forall c, tokens (accumulate turns c)
                            <= grand_tokens_of (accumulate turns)).
  { intros c. rewrite grand_tokens_of_sum. destruct c; lia. }
  assert (Hpct : forall c,
            is_percentage
              (Fl.round (share_pct (mins (accumulate turns c))
                           (grand_mins_of (accumulate turns))) 1)
            /\ is_percentage
                 (Fl.round (share_pct (inject_Z (tokens (accumulate turns c)))
                              (inject_Z (grand_tokens_of (accumulate turns)))) 1)).
  { intros c. destruct (Hacc c) as [Tc Mc].
    destruct (share_pct_percentage _ _ Mc (Hmins c)) as [A1 A2].
    destruct (share_pct_percentage
                (inject_Z (tokens (accumulate turns c)))
                (inject_Z (grand_tokens_of (accumulate turns)))) as [B1 B2].
    { now rewrite <- Zle_Qle. }
    { rewrite <- Zle_Qle. apply Htoks. }
    unfold is_percentage.
    repeat split; (apply round_ge_int || apply round_le_int); assumption. }
  intros c. destruct c; cbn [mins_share tokens_share]; apply Hpct.
Qed.

Lemma summarize_shares_are_percentages_witness :
  exists s,
    summarize deploy_turns = Ok s
    /\ forall c,
         is_percentage (mins_share (summary_totals s c))
         /\ is_percentage (tokens_share (summary_totals s c)).
Proof.
  apply summarize_shares_are_percentages.
  repeat constructor; vm_compute; discriminate.
Defined.

(** ** What the loader makes of the cells of a table *)

Lemma isspace_lower (c : ascii) : Py.isspace (Py.lower_char c) = Py.isspace c.
Proof. destruct c as [[] [] [] [] [] [] [] []]; reflexivity. Qed.

Lemma lstrip_lower (s : string) :
  Py.lstrip (Py.lower s) = Py.lower (Py.lstrip s).
Proof.
  induction s as [|c s IH]; [reflexivity|].
  cbn [Py.lower Py.lstrip]. rewrite isspace_lower.
  destruct (Py.isspace c); [exact IH|reflexivity].
Qed.

Lemma rstrip_lower (s : string) :
  Py.rstrip (Py.lower s) = Py.lower (Py.rstrip s).
Proof.
  induction s as [|c s IH]; [reflexivity|].
  cbn [Py.lower]. rewrite !rstrip_cons, IH, isspace_lower.
  destruct (Py.rstrip s); cbn [Py.lower]; [|reflexivity].
  now destruct (Py.isspace c).
Qed.

Lemma strip_lower (s : string) : Py.strip (Py.lower s) = Py.lower (Py.strip s).
Proof. unfold Py.strip. now rewrite lstrip_lower, rstrip_lower. Qed.

(** Every message read from a table has its role and its content trimmed:
    neither begins or ends with a blank, however the cells were padded, so
    a role cell that reads " USER " does start a turn. *)
Theorem csv_messages_are_trimmed (fromisoformat : string -> option Z)
    (rows : list row) (msgs : list message) :
  read_chat fromisoformat (CsvRows rows) = Ok msgs ->
  List.Forall (fun m => trimmed (role m) /\ trimmed (content m)) msgs.
Proof.
  unfold read_chat. cbn [collect bind]. intros [= <-].
  apply List.Forall_forall. intros m Hm.
  apply (Permutation_in m (Permutation_sym (sort_by_time_perm _))) in Hm.
  apply collect_csv_In in Hm as (r & _ & Hr).
  unfold csv_message in Hr.
  destruct (negb (Py.truthy (Py.strip _)) || negb (Py.truthy (Py.lower _)));
    [discriminate|].
  destruct (parse_dt _ _); [|discriminate].
  injection Hr as <-. cbn [role content]. unfold trimmed. split.
  - now rewrite strip_lower, strip_idem.
  - apply strip_idem.
Qed.

Lemma csv_messages_are_trimmed_witness :
  exists u a,
    read_chat no_isoformat (CsvRows padded_rows) = Ok [u; a]
    /\ role u = "user" /\ content u = "it crashed"
    /\ List.Forall (fun m => trimmed (role m) /\ trimmed (content m)) [u; a].
Proof.
  assert (E : exists u a,
             read_chat no_isoformat (CsvRows padded_rows) = Ok [u; a]
             /\ role u = "user" /\ content u = "it crashed").
  { vm_compute. do 2 eexists. repeat split; reflexivity. }
  destruct E as (u & a & E & Hr & Hc). exists u, a.
  repeat (split; [assumption|]).
  exact (csv_messages_are_trimmed no_isoformat padded_rows [u; a] E).
Defined.

(** ** The run of chat_metrics.py *)

(** How a run of the analyser ends.  It stops with [SystemExit] exactly
    when the loader returns no message.  An exception that reaches the
    caller is the loader's, the OverflowError of [group_turns], or one the
    output stage raises while it makes the directory and writes the two
    files: the aggregator never fails, even on no turn at all.  When the
    run completes, the table written has one row for each message of role
    "user" (none when nobody of that role speaks), in order, and the summary
    written is that of these rows, its grand total of tokens being their
    sum. *)
Theorem chat_main_ends (fromisoformat : string -> option Z)
    (makedirs : string -> result unit)
    (save_csv : list turn -> string -> result unit)
    (dump_summary : summary -> string -> result unit)
    (path_join : string -> string -> string)
    (src : chat_source) (cap_mins : Z) (out : string) :
  match chat_main_run fromisoformat makedirs save_csv dump_summary path_join
          false src cap_mins out with
  | KeywordDump => False
  | SystemExit _ => read_chat fromisoformat src = Ok []
  | Propagated e =>
      read_chat fromisoformat src = Raise e
      \/ (exists msgs,
            read_chat fromisoformat src = Ok msgs
            /\ group_turns msgs cap_mins = Raise e
            /\ e = OverflowError)
      \/ (exists msgs turns s,
            read_chat fromisoformat src = Ok msgs
            /\ msgs <> []
            /\ group_turns msgs cap_mins = Ok turns
            /\ summarize turns = Ok s
            /\ (makedirs out = Raise e
                \/ (makedirs out = Ok tt
                    /\ save_csv turns (path_join out "by_turn.csv") = Raise e)
                \/ (makedirs out = Ok tt
                    /\ save_csv turns (path_join out "by_turn.csv") = Ok tt
                    /\ dump_summary s (path_join out "summary.json")
                       = Raise e)))
  | Outputs turns s =>
      exists msgs,
        read_chat fromisoformat src = Ok msgs
        /\ msgs <> []
        /\ group_turns msgs cap_mins = Ok turns
        /\ map user_time turns = map timestamp (user_messages msgs)
        /\ summarize turns = Ok s
        /\ grand_tokens s = tokens_sum turns
        /\ makedirs out = Ok tt
        /\ save_csv turns (path_join out "by_turn.csv") = Ok tt
        /\ dump_summary s (path_join out "summary.json") = Ok tt
  end.
Proof.
  unfold chat_main_run, chat_main.
  destruct (read_chat fromisoformat src) as [msgs|e] eqn:Er; [|now left].
  destruct msgs as [|m msgs]; [reflexivity|].
  destruct (group_turns (m :: msgs) cap_mins) as [turns|e] eqn:Eg.
  - assert (Hs : exists s, summarize turns = Ok s
                           /\ grand_tokens s = tokens_sum turns).
    { unfold summarize. rewrite !share_entry_returns. cbn [bind].
      eexists. split; [reflexivity|]. cbn [grand_tokens].
      unfold accumulate.
      rewrite grand_tokens_of_sum, !accumulate_tokens.
      cbn [totals0 tokens]. rewrite (tokens_sum_by_category turns). lia. }
    destruct Hs as (s & Hs & Hg). rewrite Hs.
    destruct (turns_loop_users (m :: msgs) (user_indices (m :: msgs)) cap_mins
                (user_indices (m :: msgs)) O turns (user_messages (m :: msgs))
                Eg (user_indices_from_nth (m :: msgs) [])) as (Ht & _).
    unfold write_outputs.
    destruct (makedirs out) as [[]|e] eqn:Em; cbn [bind].
    + destruct (save_csv turns (path_join out "by_turn.csv")) as [[]|e] eqn:Ec;
        cbn [bind].
      * destruct (dump_summary s (path_join out "summary.json")) as [[]|e]
          eqn:Ed.
        -- exists (m :: msgs).
           repeat split; first [assumption | reflexivity | discriminate].
        -- right. right. exists (m :: msgs), turns, s.
           repeat (split; [easy|]). right. right. now repeat split.
      * right. right. exists (m :: msgs), turns, s.
        repeat (split; [easy|]). right. left. now split.
    + right. right. exists (m :: msgs), turns, s.
      repeat (split; [easy|]). now left.
  - right. left. exists (m :: msgs). split; [reflexivity|]. split; [exact Eg|].
    assert (Hin : forall ui, In ui (user_indices (m :: msgs)) ->
                  exists m', nth_error (m :: msgs) ui = Some m').
    { intros ui Hui. apply In_nth_error in Hui as [k Hk].
      destruct (user_indices_spec _ _ _ Hk) as (m' & Hm' & _). eauto. }
    exact (turns_loop_raises (m :: msgs) (user_indices (m :: msgs)) cap_mins
             (user_indices (m :: msgs)) e Hin Hin O Eg).
Qed.

(** A chat in which no message has the role "user" passes the check for
    messages, yet has no turn: the run writes a table without rows and a
    summary whose totals and shares are all zero, and does so whatever the
    cap, an out-of-range one included. *)
Theorem chat_main_without_user (fromisoformat : string -> option Z)
    (src : chat_source) (cap_mins : Z) (msgs : list message) :
  read_chat fromisoformat src = Ok msgs ->
  msgs <> [] ->
  user_messages msgs = [] ->
  exists s,
    chat_main fromisoformat false src cap_mins = Outputs [] s
    /\ grand_tokens s = 0
    /\ grand_mins s = inject_Z 0
    /\ forall c,
         share_tokens (summary_totals s c) = 0
         /\ mins_share (summary_totals s c) = inject_Z 0
         /\ tokens_share (summary_totals s c) = inject_Z 0.
Proof.
  intros Hr Hne Hnone. unfold chat_main. rewrite Hr.
  destruct msgs as [|m msgs]; [now elim Hne|].
  assert (Hg : group_turns (m :: msgs) cap_mins = Ok []).
  { pose proof (user_indices_from_nth (m :: msgs) []) as E.
    rewrite Hnone in E. cbn [List.length app map] in E.
    unfold group_turns, user_indices.
    destruct (user_indices_from 0 (m :: msgs)); [reflexivity|discriminate E]. }
  rewrite Hg.
  assert (Hs : exists s0,
             summarize [] = Ok s0
             /\ grand_tokens s0 = 0 /\ grand_mins s0 = inject_Z 0
             /\ forall c,
                  share_tokens (summary_totals s0 c) = 0
                  /\ mins_share (summary_totals s0 c) = inject_Z 0
                  /\ tokens_share (summary_totals s0 c) = inject_Z 0).
  { eexists. split; [vm_compute; reflexivity|].
    split; [reflexivity|]. split; [reflexivity|].
    intros c. destruct c; repeat split; reflexivity. }
  destruct Hs as (s0 & Hs & H). rewrite Hs. exists s0. split; [reflexivity|exact H].
Qed.

Lemma chat_main_without_user_witness :
  exists s,
    chat_main no_isoformat false (JsonItems assistant_only) 1440000000000
    = Outputs [] s
    /\ grand_tokens s = 0
    /\ grand_mins s = inject_Z 0
    /\ forall c,
         share_tokens (summary_totals s c) = 0
         /\ mins_share (summary_totals s c) = inject_Z 0
         /\ tokens_share (summary_totals s c) = inject_Z 0.
Proof.
  assert (E : exists m1 m2,
             read_chat no_isoformat (JsonItems assistant_only) = Ok [m1; m2]
             /\ user_messages [m1; m2] = []).
  { vm_compute. do 2 eexists. split; reflexivity. }
  destruct E as (m1 & m2 & E & Hu).
  apply (chat_main_without_user no_isoformat (JsonItems assistant_only)
           1440000000000 [m1; m2] E); [discriminate|exact Hu].
Defined.
